(** * zrepl: dataset paths, the [zfs] process layer and the pulling endpoint

    A shallow embedding of [zfs/zfs.go] (package [zfs]) and of
    [cmd/replication.go] (the [Puller] endpoint), with the properties the
    specification states about them.

    Conventions of the embedding:
    - a Go [string] is a byte sequence, here a [string] of 8-bit [ascii];
    - a Go result list [(v, err)] is a pair [(v, option error)], [None] being
      the nil error; the value returned next to a non-nil error is kept,
      because several functions use named results and a bare [return];
    - a run-time panic (index or slice bound out of range) is [None] of an
      [option];
    - subprocesses and the other collaborators outside the two files are a
      [World] of recorded answers, and every function that touches them
      returns the list of [event]s it caused next to its result. *)

From Stdlib Require Import ZArith Ascii String.
From stdpp Require Import base list gmap strings.

Local Open Scope Z_scope.

(** ** Errors *)

(** One constructor per error value the two files create, [ErrExternal] for
    errors that come from outside them ([os/exec], [bufio], the policy). *)
Inductive error : Type :=
| ErrForbiddenChars        (* "contains forbidden characters (any of '%s')" *)
| ErrTrailingSlash         (* "must not end with a '/'" *)
| ErrUnexpectedOutput      (* errors.New("unexpected output") *)
| ErrPropContainsEq        (* "prop contains rune '=' which is the delimiter ..." *)
| ErrPullerDoesNotSend     (* "puller does not send" *)
| ErrResumeTokenMismatch   (* "receive-side resume token does not metch ..." *)
| FilteredError (fs : string)                  (* replication.NewFilteredError(fs) *)
| ZFSError (Stderr : string) (WaitErr : error) (* type ZFSError struct *)
| ErrExternal (msg : string).

(** Validation errors are the two that [NewDatasetPath] creates. *)
Definition is_validation_error (e : error) : bool :=
  match e with
  | ErrForbiddenChars | ErrTrailingSlash => true
  | _ => false
  end.

(** ** The functions of Go's [strings] package that the code calls *)

Module strings.

Definition tab : ascii := "009"%char.
Definition newline : ascii := "010"%char.
Definition cr : ascii := "013"%char.

(** [strings.IndexByte(s, c) >= 0] *)
Fixpoint ContainsByte (s : string) (c : ascii) : bool :=
  match s with
  | EmptyString => false
  | String x r => Ascii.eqb x c || ContainsByte r c
  end.

(** [strings.ContainsAny(s, chars)], for [chars] made of ASCII bytes. *)
Fixpoint ContainsAny (s chars : string) : bool :=
  match s with
  | EmptyString => false
  | String x r => ContainsByte chars x || ContainsAny r chars
  end.

(** [strings.Contains(s, substr)] *)
Fixpoint Contains (s substr : string) : bool :=
  String.prefix substr s
  || match s with
     | EmptyString => false
     | String _ r => Contains r substr
     end.

(** [strings.Count(s, sep)] for a one-byte separator. *)
Fixpoint Count (s : string) (sep : ascii) : nat :=
  match s with
  | EmptyString => 0%nat
  | String x r => ((if Ascii.eqb x sep then 1 else 0) + Count r sep)%nat
  end.

(** [strings.Cut(s, sep)]: the text before and after the first [sep]. *)
Fixpoint Cut (s : string) (sep : ascii) : option (string * string) :=
  match s with
  | EmptyString => None
  | String x r =>
      if Ascii.eqb x sep then Some (EmptyString, r)
      else match Cut r sep with
           | Some (a, b) => Some (String x a, b)
           | None => None
           end
  end.

(** The loop of [genSplit]: at most [n] pieces, the last one unsplit. *)
Fixpoint genSplit (s : string) (sep : ascii) (n : nat) : list string :=
  match n with
  | O => []
  | S O => [s]
  | S (S _ as n') =>
      match Cut s sep with
      | None => [s]
      | Some (a, b) => a :: genSplit b sep n'
      end
  end.

(** [strings.SplitN(s, sep, n)]: [n = 0] gives nil, [n < 0] all pieces. *)
Definition SplitN (s : string) (sep : ascii) (n : Z) : list string :=
  if n =? 0 then []
  else if n <? 0 then genSplit s sep (S (Count s sep))
  else genSplit s sep (Z.to_nat n).

(** [strings.Split(s, sep)] is [SplitN(s, sep, -1)]. *)
Definition Split (s : string) (sep : ascii) : list string := SplitN s sep (-1).

(** [strings.Join(elems, sep)] *)
Definition Join (elems : list string) (sep : string) : string :=
  String.concat sep elems.

End strings.

(** [len(x)] of a slice, as a Go [int]. *)
Definition len {A} (l : list A) : Z := Z.of_nat (length l).

(** [s[low:]] panics unless [0 <= low <= len(s)]. *)
Definition slice_from {A} (s : list A) (low : Z) : option (list A) :=
  if (0 <=? low) && (low <=? len s) then Some (drop (Z.to_nat low) s) else None.

(** ** DatasetPath *)

Record DatasetPath : Type := mkDatasetPath { comps : list string }.

Definition ToString (p : DatasetPath) : string :=
  strings.Join (comps p) "/".

Definition Empty (p : DatasetPath) : bool := len (comps p) =? 0.

Definition Length (p : DatasetPath) : Z := len (comps p).

(** [p.Equal(q)]: same length and the same component at every index. *)
Fixpoint comps_equal (a b : list string) : bool :=
  match a, b with
  | [], [] => true
  | x :: a', y :: b' => String.eqb x y && comps_equal a' b'
  | _, _ => false
  end.

Definition Equal (p q : DatasetPath) : bool :=
  if negb (len (comps p) =? len (comps q)) then false
  else comps_equal (comps p) (comps q).

(** [p.TrimNPrefixComps(n)]; the receiver is updated in place, the model
    returns its new value, [None] when the slice expression panics. *)
Definition TrimNPrefixComps (p : DatasetPath) (n : Z) : option DatasetPath :=
  let n := if len (comps p) <? n then len (comps p) else n in
  if n =? 0 then Some p
  else match slice_from (comps p) n with
       | Some c => Some (mkDatasetPath c)
       | None => None
       end.

Definition FORBIDDEN : string := "@#|" +:+ String strings.tab " <>*".

(** [NewDatasetPath(s)]: named results [(p, err)], so [p] is returned as it
    stands when a check fails.  [strings.Split] never returns an empty list
    (lemma [Split_not_nil]), so the index [len(p.comps)-1] is in range and
    the default of [List.last] is never used. *)
Definition NewDatasetPath (s : string) : DatasetPath * option error :=
  if String.eqb s "" then (mkDatasetPath [], None)
  else if strings.ContainsAny s FORBIDDEN then (mkDatasetPath [], Some ErrForbiddenChars)
  else
    let p := mkDatasetPath (strings.Split s "/") in
    if String.eqb (List.last (comps p) "x") "" then (p, Some ErrTrailingSlash)
    else (p, None).

(** ** Subprocesses and the other collaborators *)

(** A command line: the binary and its arguments. *)
Record Cmd : Type := mkCmd { cmd_path : string; cmd_args : list string }.

(** What a call leaves behind outside the program.  The two [EvZFS...] events
    are calls of helpers of package [zfs] that live in other files of the
    repository; by the specification both run a [zfs] subprocess. *)
Inductive event : Type :=
| EvCommand (c : Cmd)  (* exec.Command, util.NewIOCommand, rwccmd.CommandContext *)
| EvStart (c : Cmd)    (* cmd.Start() *)
| EvWait (c : Cmd)     (* cmd.Wait() *)
| EvZFSGetReceiveResumeToken (fs : DatasetPath)
| EvZFSListFilesystemVersions (fs : DatasetPath).

(** [zfs recv ...] is being run: the event is about a command line whose
    first argument is [recv]. *)
Definition is_recv_event (e : event) : bool :=
  match e with
  | EvCommand c | EvStart c | EvWait c =>
      match cmd_args c with
      | a :: _ => String.eqb a "recv"
      | [] => false
      end
  | _ => false
  end.

(** How the process of a command line behaves. *)
Record Process : Type := mkProcess {
  create_err : option error;  (* util.NewIOCommand / rwccmd.CommandContext *)
  pipe_err : option error;    (* cmd.StdoutPipe() *)
  start_err : option error;   (* cmd.Start() *)
  stdout : string;            (* everything the process writes to stdout *)
  stderr : string;
  wait_err : option error     (* cmd.Wait(): nil on exit status 0 *)
}.

Record World : Type := mkWorld {
  ZFS_BINARY : string;        (* var ZFS_BINARY string = "zfs" *)
  run : Cmd -> Process;
  (* answer of zfs.ZFSGetReceiveResumeToken(fs), defined outside zfs.go *)
  receive_resume_token : DatasetPath -> string * option error;
  (* the order in which a [range] loop visits the entries of a map *)
  map_range : gmap string string -> list (string * string)
}.

(** Go leaves the iteration order of a map unspecified, but every entry is
    visited once. *)
Definition range_visits_each_entry_once (w : World) : Prop :=
  forall m : gmap string string, map_range w m ≡ₚ map_to_list m.

(** Computations that log events: a writer monad over [list event]. *)
Definition IO (A : Type) : Type := (list event * A)%type.

Definition io_ret {A} (a : A) : IO A := ([], a).

Definition io_bind {A B} (m : IO A) (f : A -> IO B) : IO B :=
  let '(t1, a) := m in
  let '(t2, b) := f a in
  (t1 ++ t2, b).

#[global] Instance IO_ret : MRet IO := @io_ret.
#[global] Instance IO_bind : MBind IO := fun A B f m => io_bind m f.

Definition trace {A} (m : IO A) : list event := fst m.
Definition result {A} (m : IO A) : A := snd m.

Definition Command (name : string) (args : list string) : IO Cmd :=
  let c := mkCmd name args in ([EvCommand c], c).

Definition Start (w : World) (c : Cmd) : IO (option error) :=
  ([EvStart c], start_err (run w c)).

Definition Wait (w : World) (c : Cmd) : IO (option error) :=
  ([EvWait c], wait_err (run w c)).

(** [util.NewIOCommand] and [rwccmd.CommandContext] are defined outside the
    two files: they build the command with its pipes and may fail, with the
    error the world gives. *)
Definition NewIOCommand (w : World) (name : string) (args : list string)
    : IO (Cmd * option error) :=
  let c := mkCmd name args in ([EvCommand c], (c, create_err (run w c))).

Definition CommandContext (w : World) (name : string) (args : list string)
    : IO (Cmd * option error) :=
  let c := mkCmd name args in ([EvCommand c], (c, create_err (run w c))).

(** ** bufio.Scanner with [ScanLines] and a fixed buffer

    [s.Buffer(buf, 0)] with [len(buf) = 1024] makes the scanner use this
    buffer only: a line is a token if it fits into the buffer together with
    its newline; when the buffer is full without a newline, [Scan] returns
    false and [s.Err()] is [bufio.ErrTooLong].  [Scanner data max] gives the
    tokens that the successive [Scan] calls deliver and the final [s.Err()]. *)

Definition ErrTooLong : error := ErrExternal "bufio.Scanner: token too long".

Fixpoint dropCR (s : string) : string :=
  match s with
  | EmptyString => EmptyString
  | String c r =>
      match r with
      | EmptyString => if Ascii.eqb c strings.cr then EmptyString else s
      | _ => String c (dropCR r)
      end
  end.

(** [cur] is the part of the current line read so far. *)
Fixpoint scan_lines (data : string) (max : nat) (cur : string)
    : list string * option error :=
  match data with
  | EmptyString =>
      match cur with
      | EmptyString => ([], None)
      | _ => ([dropCR cur], None)     (* final line without newline *)
      end
  | String c r =>
      if Ascii.eqb c strings.newline then
        let '(ls, e) := scan_lines r max EmptyString in (dropCR cur :: ls, e)
      else if (max <=? S (String.length cur))%nat then ([], Some ErrTooLong)
      else scan_lines r max (cur +:+ String c EmptyString)
  end.

Definition Scanner (data : string) (max : nat) : list string * option error :=
  scan_lines data max EmptyString.

(** ** ZFSList *)

(** The body of [for s.Scan() { ... }] over the tokens of the scanner; [res]
    is the named result, returned as it stands when a line is rejected. *)
Fixpoint ZFSList_loop (properties : list string) (lines : list string)
    (res : list (list string)) : list (list string) * option error :=
  match lines with
  | [] => (res, None)
  | text :: rest =>
      let fields := strings.SplitN text strings.tab (len properties) in
      if negb (len fields =? len properties) then (res, Some ErrUnexpectedOutput)
      else ZFSList_loop properties rest (res ++ [fields])
  end.

Definition list_args (properties zfsArgs : list string) : list string :=
  ["list"; "-H"; "-p"; "-o"; strings.Join properties ","] ++ zfsArgs.

Definition ZFSList (w : World) (properties zfsArgs : list string)
    : IO (list (list string) * option error) :=
  let args := list_args properties zfsArgs in
  cmd ← Command (ZFS_BINARY w) args;
  match pipe_err (run w cmd) with
  | Some e => mret ([], Some e)
  | None =>
      err ← Start w cmd;
      match err with
      | Some e => mret ([], Some e)
      | None =>
          (* the loop ends when Scan returns false; s.Err() is not read *)
          let '(lines, _) := Scanner (stdout (run w cmd)) 1024 in
          match ZFSList_loop properties lines [] with
          | (res, Some e) => mret (res, Some e)
          | (res, None) =>
              waitErr ← Wait w cmd;
              match waitErr with
              | Some e => mret ([], Some (ZFSError (stderr (run w cmd)) e))
              | None => mret (res, None)
              end
          end
      end
  end.

(** ** ZFSListChan *)

Record ZFSListResult : Type := mkZFSListResult {
  Fields : list string;
  Err : option error
}.

(** The results sent on [out] before it is closed, for a context that is
    never cancelled and a consumer that keeps receiving: [sendResult] then
    always sends and returns false. *)
Fixpoint ZFSListChan_loop (properties : list string) (lines : list string)
    (scanErr : option error) : list ZFSListResult :=
  match lines with
  | [] =>
      match scanErr with
      | Some e => [mkZFSListResult [] (Some e)]
      | None => []
      end
  | text :: rest =>
      let fields := strings.SplitN text strings.tab (len properties) in
      if negb (len fields =? len properties)
      then [mkZFSListResult [] (Some ErrUnexpectedOutput)]
      else mkZFSListResult fields None :: ZFSListChan_loop properties rest scanErr
  end.

Definition ZFSListChan (w : World) (properties zfsArgs : list string)
    : IO (list ZFSListResult) :=
  let args := list_args properties zfsArgs in
  '(cmd, err) ← CommandContext w (ZFS_BINARY w) args;
  match err with
  | Some e => mret [mkZFSListResult [] (Some e)]
  | None =>
      err ← Start w cmd;
      match err with
      | Some e => mret [mkZFSListResult [] (Some e)]
      | None =>
          let '(lines, scanErr) := Scanner (stdout (run w cmd)) 1024 in
          mret (ZFSListChan_loop properties lines scanErr)
      end
  end.

(** ** ZFSRecvWriter *)

(** The writable end of the standard input of a started command. *)
Inductive WriteCloser : Type := StdinOf (c : Cmd).

Definition recv_args (fs : DatasetPath) (additionalArgs : list string) : list string :=
  let args := ["recv"] in
  let args := if 0 <? len args then args ++ additionalArgs else args in
  args ++ [ToString fs].

Definition ZFSRecvWriter (w : World) (fs : DatasetPath) (additionalArgs : list string)
    : IO (option WriteCloser * option error) :=
  let args := recv_args fs additionalArgs in
  '(cmd, err) ← NewIOCommand w (ZFS_BINARY w) args;
  match err with
  | Some e => mret (None, Some e)
  | None =>
      err ← Start w cmd;
      match err with
      | Some e => mret (None, Some e)
      | None => mret (Some (StdinOf cmd), None)
      end
  end.

(** [zfs.ZFSGetReceiveResumeToken(fs)] is defined in another file of package
    [zfs] and is a parameter here: the call is logged, the answer is the
    world's. *)
Definition ZFSGetReceiveResumeToken (w : World) (fs : DatasetPath)
    : IO (string * option error) :=
  ([EvZFSGetReceiveResumeToken fs], receive_resume_token w fs).

(** ** ZFSProperties and ZFSSet *)

Record ZFSProperties : Type := mkZFSProperties { m : gmap string string }.

Definition NewZFSProperties : ZFSProperties := mkZFSProperties ∅.

Definition Set_ (p : ZFSProperties) (key val : string) : ZFSProperties :=
  mkZFSProperties (<[key := val]> (m p)).

(** [fmt.Sprintf("%s=%s", prop, val)] *)
Definition prop_token (entry : string * string) : string :=
  fst entry +:+ "=" +:+ snd entry.

(** The body of [for prop, val := range p.m { ... }] over the entries in the
    order the iteration visits them; [args] is the slice behind the pointer,
    returned with what was appended before an error. *)
Fixpoint appendArgs_range (entries : list (string * string)) (args : list string)
    : list string * option error :=
  match entries with
  | [] => (args, None)
  | (prop, val) :: rest =>
      if strings.Contains prop "=" then (args, Some ErrPropContainsEq)
      else appendArgs_range rest (args ++ [prop_token (prop, val)])
  end.

Definition appendArgs (w : World) (p : ZFSProperties) (args : list string)
    : list string * option error :=
  appendArgs_range (map_range w (m p)) args.

Definition ZFSSet (w : World) (fs : DatasetPath) (props : ZFSProperties)
    : IO (option error) :=
  let args := ["set"] in
  let '(args, err) := appendArgs w props args in
  match err with
  | Some e => mret (Some e)
  | None =>
      let args := args ++ [ToString fs] in
      cmd ← Command (ZFS_BINARY w) args;
      err ← Start w cmd;
      match err with
      | Some e => mret (Some e)
      | None =>
          err ← Wait w cmd;
          match err with
          | Some e => mret (Some (ZFSError (stderr (run w cmd)) e))
          | None => mret None
          end
      end
  end.

(** ** The pulling endpoint ([cmd/replication.go]) *)

(** The policy is declared outside the two files and is a parameter here,
    by its contract: [Filter(path) -> (pass, err)] and
    [InvertedFilter() -> (filter, err)]. *)
Record DatasetFilter : Type := mkDatasetFilter {
  Filter : DatasetPath -> bool * option error
}.

Record DatasetMapFilter : Type := mkDatasetMapFilter {
  InvertedFilter : DatasetFilter * option error
}.

(** [replication.Filesystem] and [replication.ReceiveRequest], with the
    fields the endpoint uses. *)
Record Filesystem : Type := mkFilesystem {
  Path : string;
  ResumeToken : string
}.

Record ReceiveRequest : Type := mkReceiveRequest {
  req_Filesystem : string;    (* r.Filesystem *)
  req_ResumeToken : string    (* r.ResumeToken *)
}.

(** The body of [for res := range ch { ... }] over the results received.
    [token] is computed from [res.Fields[1]] and normalised, and the record
    is then built from [res.Fields[0]] and [res.Fields[1]].  An index out of
    range is a panic.  The channel is closed in [ListFilesystems] below. *)
Fixpoint ListFilesystems_loop (ch : list ZFSListResult) (fss : list Filesystem)
    : option (list Filesystem * option error) :=
  match ch with
  | [] => Some (fss, None)
  | res :: rest =>
      match Err res with
      | Some e => Some ([], Some e)
      | None =>
          match Fields res !! 1%nat with
          | None => None
          | Some f1 =>
              let token := f1 in
              let token := if String.eqb token "-" then "" else token in
              match Fields res !! 0%nat, Fields res !! 1%nat with
              | Some path, Some field1 =>
                  ListFilesystems_loop rest
                    (fss ++ [{| Path := path; ResumeToken := field1 |}])
              | _, _ => None
              end
          end
      end
  end.

(** How a call that hands a channel to a goroutine can end.  An unrecovered
    panic, in the call or in the goroutine it started, ends the program. *)
Inductive panic : Type :=
| IndexOutOfRange         (* index out of range *)
| CloseOfClosedChannel.   (* close of closed channel *)

Inductive outcome (A : Type) : Type :=
| Returns (a : A)                            (* returns; nothing panics *)
| ReturnsListerPanics (a : A) (why : panic)  (* returns; the goroutine then panics *)
| Panics (why : panic).                      (* the call itself panics *)

Arguments Returns {A} a.
Arguments ReturnsListerPanics {A} a why.
Arguments Panics {A} why.

Section Puller.

(** [zfs.FilesystemVersion], [zfs.FilesystemVersionFilter] and
    [zfs.ZFSListFilesystemVersions] are declared in other files of package
    [zfs]: the types are opaque here and the function is a recorded answer. *)
Variable FilesystemVersion : Type.
Variable FilesystemVersionFilter : Type.
Variable filesystem_versions :
  DatasetPath -> FilesystemVersionFilter -> list FilesystemVersion * option error.

Record Puller : Type := mkPuller {
  Mapping : DatasetMapFilter;
  InitialReplPolicy : string;
  VersionFilter : FilesystemVersionFilter   (* p.FilesystemVersionFilter *)
}.

Definition ZFSListFilesystemVersions (fs : DatasetPath) (filter : FilesystemVersionFilter)
    : IO (list FilesystemVersion * option error) :=
  ([EvZFSListFilesystemVersions fs], filesystem_versions fs filter).

(** [ListFilesystems] starts [ZFSListChan] on the channel [ch] in a goroutine
    and defers [close(ch)].  [ZFSListChan] closes the same channel when it
    returns ([defer close(out)]), and the [range] loop ends only when the
    channel is closed; so the deferred [close(ch)] after the loop always
    finds the channel closed.  When the loop is left with the error of a
    result, [ZFSListChan] is returning at the same moment and the two closes
    race: [caller_closes_first] says that the deferred close of
    [ListFilesystems] comes before the close in [ZFSListChan], which then
    panics in its goroutine. *)
Definition ListFilesystems (w : World) (p : Puller) (caller_closes_first : bool)
    : IO (outcome (list Filesystem * option error)) :=
  let '(f, err) := InvertedFilter (Mapping p) in
  match err with
  | Some e => mret (Returns ([], Some e))
  | None =>
      let props := ["name"; "receive_resume_token"] in
      ch ← ZFSListChan w props [];
      match ListFilesystems_loop ch [] with
      | None => mret (Panics IndexOutOfRange)
      | Some (fss, None) =>
          (* return fss, nil; the deferred close(ch) panics *)
          mret (Panics CloseOfClosedChannel)
      | Some (fss, Some e) =>
          (* return nil, res.Err; the deferred close(ch) races with close(out) *)
          if caller_closes_first
          then mret (ReturnsListerPanics (fss, Some e) CloseOfClosedChannel)
          else mret (Panics CloseOfClosedChannel)
      end
  end.

Definition ListFilesystemVersions (w : World) (p : Puller) (fs : string)
    : IO (list FilesystemVersion * option error) :=
  let '(dp, err) := NewDatasetPath fs in
  match err with
  | Some e => mret ([], Some e)
  | None =>
      let '(f, err) := InvertedFilter (Mapping p) in
      match err with
      | Some e => mret ([], Some e)
      | None =>
          let '(pass, err) := Filter f dp in
          match err with
          | Some e => mret ([], Some e)
          | None =>
              if negb pass then mret ([], Some (FilteredError fs))
              else ZFSListFilesystemVersions dp (VersionFilter p)
          end
      end
  end.

(** [Send] answers with the zero response and an error. *)
Definition Send (p : Puller) : unit * option error := (tt, Some ErrPullerDoesNotSend).

Definition Receive (w : World) (p : Puller) (r : ReceiveRequest)
    : IO (option WriteCloser * option error) :=
  let '(dp, err) := NewDatasetPath (req_Filesystem r) in
  match err with
  | Some e => mret (None, Some e)
  | None =>
      let '(f, err) := InvertedFilter (Mapping p) in
      match err with
      | Some e => mret (None, Some e)
      | None =>
          let '(pass, err) := Filter f dp in
          match err with
          | Some e => mret (None, Some e)
          | None =>
              if negb pass then mret (None, Some (FilteredError (req_Filesystem r)))
              else
                (* if r.ResumeToken != "" { ... }: the error it returns with, if any *)
                tokenErr ←
                  (if negb (String.eqb (req_ResumeToken r) "") then
                     '(localToken, err) ← ZFSGetReceiveResumeToken w dp;
                     match err with
                     | Some e => mret (Some e)
                     | None =>
                         if negb (String.eqb localToken (req_ResumeToken r))
                         then mret (Some ErrResumeTokenMismatch)
                         else mret None
                     end
                   else mret None);
                match tokenErr with
                | Some e => mret (None, Some e)
                | None =>
                    '(writer, err) ← ZFSRecvWriter w dp [];
                    match err with
                    | Some e => mret (None, Some e)
                    | None => mret (writer, None)
                    end
                end
          end
      end
  end.

End Puller.

Arguments mkPuller {FilesystemVersionFilter}.
Arguments Mapping {FilesystemVersionFilter}.
Arguments VersionFilter {FilesystemVersionFilter}.
Arguments ListFilesystems {FilesystemVersionFilter}.
Arguments ListFilesystemVersions {FilesystemVersion FilesystemVersionFilter}.
Arguments Receive {FilesystemVersionFilter}.

(** The characters of the specification's list. *)
Definition forbidden_chars : list ascii :=
  ["@"; "#"; "|"; strings.tab; " "; "<"; ">"; "*"]%char.

(** A line is well-formed for [properties] when [SplitN] gives as many
    fields as there are properties. *)
Definition well_formed (properties : list string) (text : string) : Prop :=
  len (strings.SplitN text strings.tab (len properties)) = len properties.

Definition fields_of (properties : list string) (text : string) : list string :=
  strings.SplitN text strings.tab (len properties).

(** ** Concrete worlds, used to run the functions *)

(** A process that starts, prints [out] on its standard output and exits
    with status 0. *)
Definition prints (out : string) : Process :=
  {| create_err := None; pipe_err := None; start_err := None;
     stdout := out; stderr := ""; wait_err := None |}.

(** A world in which every [zfs] process prints [out] and in which the local
    resume token of every filesystem is [token]. *)
Definition world_of (out token : string) : World :=
  {| ZFS_BINARY := "zfs";
     run := fun _ => prints out;
     receive_resume_token := fun _ => (token, None);
     map_range := map_to_list |}.

(** A policy whose inverted filter answers [(pass, nil)] for every path. *)
Definition constant_policy (pass : bool) : DatasetMapFilter :=
  {| InvertedFilter := ({| Filter := fun _ => (pass, None) |}, None) |}.

Definition puller_of (pass : bool) : Puller unit :=
  {| Mapping := constant_policy pass;
     InitialReplPolicy := "most_recent";
     VersionFilter := tt |}.

(** A line of 2000 bytes: more than the 1024 bytes of the scanner's buffer. *)
Definition long_line : string := string_of_list_ascii (repeat "x"%char 2000).

(** ** The other operations of DatasetPath *)

(** [p.Extend(extend)]: the receiver's new value. *)
Definition Extend (p extend : DatasetPath) : DatasetPath :=
  mkDatasetPath (comps p ++ comps extend).

(** [p.Copy()] *)
Definition Copy (p : DatasetPath) : DatasetPath := mkDatasetPath (comps p).

(** The loop [for i := range prefix.comps] of [HasPrefix], from index [i]
    with [n] iterations left; [None] is an index out of range. *)
Fixpoint HasPrefix_loop (pcomps prefixcomps : list string) (i n : nat) : option bool :=
  match n with
  | O => Some true
  | S n' =>
      match prefixcomps !! i, pcomps !! i with
      | Some a, Some b =>
          if negb (String.eqb a b) then Some false
          else HasPrefix_loop pcomps prefixcomps (S i) n'
      | _, _ => None
      end
  end.

Definition HasPrefix (p prefix : DatasetPath) : option bool :=
  if len (comps p) <? len (comps prefix) then Some false
  else HasPrefix_loop (comps p) (comps prefix) 0 (length (comps prefix)).

(** The loop [for i := 0; i < newlen; i++ { p.comps[i] = oldcomps[prelen+i] }]
    of [TrimPrefix], from index [i] with [n] iterations left; [new] is the
    slice made with [newlen] empty strings. *)
Fixpoint TrimPrefix_loop (oldcomps : list string) (prelen i n : nat)
    (new : list string) : option (list string) :=
  match n with
  | O => Some new
  | S n' =>
      match oldcomps !! (prelen + i)%nat with
      | Some c =>
          if (i <? length new)%nat
          then TrimPrefix_loop oldcomps prelen (S i) n' (<[i := c]> new)
          else None
      | None => None
      end
  end.

(** [p.TrimPrefix(prefix)]: the receiver's new value, [None] for a panic
    ([make] with a negative length, or an index out of range). *)
Definition TrimPrefix (p prefix : DatasetPath) : option DatasetPath :=
  match HasPrefix p prefix with
  | None => None
  | Some false => Some p
  | Some true =>
      let prelen := len (comps prefix) in
      let newlen := len (comps p) - prelen in
      let oldcomps := comps p in
      if newlen <? 0 then None
      else
        match TrimPrefix_loop oldcomps (Z.to_nat prelen) 0 (Z.to_nat newlen)
                (replicate (Z.to_nat newlen) "") with
        | Some c => Some (mkDatasetPath c)
        | None => None
        end
  end.

(** [toDatasetPath(s)] panics when the string is rejected. *)
Definition toDatasetPath (s : string) : option DatasetPath :=
  match NewDatasetPath s with
  | (p, None) => Some p
  | (_, Some _) => None
  end.

(** ** Snapshot and bookmark names *)

(** [fmt.Sprintf("%s@%s", fs.ToString(), name)] *)
Definition zfsBuildSnapName (fs : DatasetPath) (name : string) : string :=
  ToString fs +:+ "@" +:+ name.

(** [fmt.Sprintf("%s#%s", fs.ToString(), name)] *)
Definition zfsBuildBookmarkName (fs : DatasetPath) (name : string) : string :=
  ToString fs +:+ "#" +:+ name.

(** ** ZFSRecv, ZFSDestroy, ZFSSnapshot, ZFSBookmark

    The standard input of [ZFSRecv] and the duration metrics of
    [ZFSSnapshot] and [ZFSBookmark] have no part in the results and are left
    out of the model. *)

Definition ZFSRecv (w : World) (fs : DatasetPath) (additionalArgs : list string)
    : IO (option error) :=
  let args := recv_args fs additionalArgs in
  cmd ← Command (ZFS_BINARY w) args;
  err ← Start w cmd;
  match err with
  | Some e => mret (Some e)
  | None =>
      err ← Wait w cmd;
      match err with
      | Some e => mret (Some (ZFSError (stderr (run w cmd)) e))
      | None => mret None
      end
  end.

Definition ZFSDestroy (w : World) (dataset : string) : IO (option error) :=
  cmd ← Command (ZFS_BINARY w) ["destroy"; dataset];
  err ← Start w cmd;
  match err with
  | Some e => mret (Some e)
  | None =>
      err ← Wait w cmd;
      match err with
      | Some e => mret (Some (ZFSError (stderr (run w cmd)) e))
      | None => mret None
      end
  end.

Definition ZFSSnapshot (w : World) (fs : DatasetPath) (name : string) (recursive : bool)
    : IO (option error) :=
  let snapname := zfsBuildSnapName fs name in
  cmd ← Command (ZFS_BINARY w) ["snapshot"; snapname];
  err ← Start w cmd;
  match err with
  | Some e => mret (Some e)
  | None =>
      err ← Wait w cmd;
      match err with
      | Some e => mret (Some (ZFSError (stderr (run w cmd)) e))
      | None => mret None
      end
  end.

Definition ZFSBookmark (w : World) (fs : DatasetPath) (snapshot bookmark : string)
    : IO (option error) :=
  let snapname := zfsBuildSnapName fs snapshot in
  let bookmarkname := zfsBuildBookmarkName fs bookmark in
  cmd ← Command (ZFS_BINARY w) ["bookmark"; snapname; bookmarkname];
  err ← Start w cmd;
  match err with
  | Some e => mret (Some e)
  | None =>
      err ← Wait w cmd;
      match err with
      | Some e => mret (Some (ZFSError (stderr (run w cmd)) e))
      | None => mret None
      end
  end.

(** ** ZFSGet *)

(** The two errors [ZFSGet] creates with [fmt.Errorf]. *)
Definition ErrGetCount : error :=
  ErrExternal "zfs get did not return the number of expected property values".
Definition ErrGetPairs : error :=
  ErrExternal "zfs get did not return property value pairs".

(** [strings.Fields] on a string of ASCII bytes: the maximal runs of bytes
    other than tab, newline, vertical tab, form feed, carriage return and
    space.  [cur] is the field read so far. *)
Definition asciiSpace (c : ascii) : bool :=
  bool_decide (c ∈ [strings.tab; strings.newline; "011"%char; "012"%char;
                    strings.cr; " "%char]).

Fixpoint fields_from (s : string) (cur : string) : list string :=
  match s with
  | EmptyString =>
      match cur with
      | EmptyString => []
      | _ => [cur]
      end
  | String c r =>
      if asciiSpace c then
        match cur with
        | EmptyString => fields_from r EmptyString
        | _ => cur :: fields_from r EmptyString
        end
      else fields_from r (cur +:+ String c EmptyString)
  end.

Definition Fields_ascii (s : string) : list string := fields_from s EmptyString.

Section ZFSGet.

(** [strings.Fields] is a parameter: for a string with bytes outside ASCII
    it works on the decoded runes.  [combined cmd] is what
    [cmd.CombinedOutput()] has collected from the standard output and the
    standard error of the process when it exits. *)
Variable Fields : string -> list string.
Variable combined : Cmd -> string.

(** [cmd.CombinedOutput()]: [Start], then [Wait]. *)
Definition CombinedOutput (w : World) (cmd : Cmd) : IO (string * option error) :=
  err ← Start w cmd;
  match err with
  | Some e => mret (EmptyString, Some e)
  | None =>
      err ← Wait w cmd;
      mret (combined cmd, err)
  end.

(** The body of [for _, line := range lines { ... }]; [res] is [res.m]. *)
Fixpoint ZFSGet_loop (lines : list string) (res : gmap string string)
    : option ZFSProperties * option error :=
  match lines with
  | [] => (Some (mkZFSProperties res), None)
  | line :: rest =>
      match Fields line with
      | [field0; field1] => ZFSGet_loop rest (<[field0 := field1]> res)
      | _ => (None, Some ErrGetPairs)      (* len(fields) != 2 *)
      end
  end.

Definition get_args (fs : DatasetPath) (props : list string) : list string :=
  ["get"; "-Hp"; "-o"; "property,value"; strings.Join props ","; ToString fs].

Definition ZFSGet (w : World) (fs : DatasetPath) (props : list string)
    : IO (option ZFSProperties * option error) :=
  let args := get_args fs props in
  cmd ← Command (ZFS_BINARY w) args;
  '(output, err) ← CombinedOutput w cmd;
  match err with
  | Some e => mret (None, Some e)
  | None =>
      let o := output in
      let lines := strings.Split o strings.newline in
      if negb (len lines =? len props) then mret (None, Some ErrGetCount)
      else mret (ZFSGet_loop lines ∅)
  end.

End ZFSGet.

(** [localPullACL.Filter] *)
Definition localPullACL_Filter (p : DatasetPath) : bool * option error := (true, None).

(** ** Notions used to state the further properties *)

(** Go's [int] has [bits] bits, 32 or 64 by the platform; its addition wraps
    around. *)
Definition MaxInt (bits : Z) : Z := 2 ^ (bits - 1) - 1.
Definition MinInt (bits : Z) : Z := - 2 ^ (bits - 1).
Definition int_add (bits a b : Z) : Z :=
  (a + b + 2 ^ (bits - 1)) mod 2 ^ bits - 2 ^ (bits - 1).

(** Running one [zfs] command to its end: the events and the error that a
    synchronous operation gives for the argument list [args]. *)
Definition run_and_wait (w : World) (args : list string) : IO (option error) :=
  let cmd := mkCmd (ZFS_BINARY w) args in
  match start_err (run w cmd) with
  | Some e => ([EvCommand cmd; EvStart cmd], Some e)
  | None =>
      ([EvCommand cmd; EvStart cmd; EvWait cmd],
       match wait_err (run w cmd) with
       | Some e => Some (ZFSError (stderr (run w cmd)) e)
       | None => None
       end)
  end.

(** A line of the output of [zfs get] that has exactly two fields. *)
Definition pair_line (Fields : string -> list string) (line : string) : Prop :=
  exists k v, Fields line = [k; v].

(** The rows among the results of a channel: the fields of the results
    without error. *)
Definition rows_of (ch : list ZFSListResult) : list (list string) :=
  omap (fun r => match Err r with
                 | None => Some (Fields r)
                 | Some _ => None
                 end) ch.

(** The error results of a channel. *)
Definition errors_of (ch : list ZFSListResult) : list error := omap Err ch.

(** * Properties *)

(** ** Strings *)

Section StringFacts.

Import strings.

Lemma ContainsByte_app a b c :
  ContainsByte (a +:+ b) c = ContainsByte a c || ContainsByte b c.
Proof.
  induction a as [|x a IH]; simpl; [done|].
  rewrite IH. by destruct (Ascii.eqb x c).
Qed.

Lemma ContainsAny_app a b chars :
  ContainsAny (a +:+ b) chars = ContainsAny a chars || ContainsAny b chars.
Proof.
  induction a as [|x a IH]; simpl; [done|].
  rewrite IH. by destruct (ContainsByte chars x).
Qed.

Lemma ContainsAny_byte s chars c :
  ContainsByte chars c = true -> ContainsByte s c = true ->
  ContainsAny s chars = true.
Proof.
  intros Hc. induction s as [|x s IH]; simpl; [done|].
  destruct (Ascii.eqb_spec x c) as [->|_]; simpl.
  - intros _. by rewrite Hc.
  - intros H. rewrite (IH H). by destruct (ContainsByte chars x).
Qed.

Lemma Cut_None_Count s sep : Cut s sep = None -> Count s sep = 0%nat.
Proof.
  induction s as [|x s IH]; simpl; [done|].
  destruct (Ascii.eqb x sep); [done|].
  destruct (Cut s sep) as [[a b]|]; [done|]. intros _. by rewrite IH.
Qed.

Lemma Cut_Some_Count s sep a b :
  Cut s sep = Some (a, b) -> Count s sep = S (Count b sep).
Proof.
  revert a. induction s as [|x s IH]; simpl; intros a; [done|].
  destruct (Ascii.eqb x sep).
  - by intros [= <- <-].
  - destruct (Cut s sep) as [[a' b']|]; [|done].
    intros [= <- <-]. by rewrite (IH a').
Qed.

Lemma Cut_free s sep : ContainsByte s sep = false -> Cut s sep = None.
Proof.
  induction s as [|x s IH]; simpl; [done|].
  destruct (Ascii.eqb x sep); simpl; [done|].
  intros H. by rewrite IH.
Qed.

Lemma Cut_app_sep a b sep :
  ContainsByte a sep = false -> Cut (a +:+ String sep b) sep = Some (a, b).
Proof.
  induction a as [|x a IH]; simpl.
  - intros _. by rewrite Ascii.eqb_refl.
  - destruct (Ascii.eqb x sep); simpl; [done|].
    intros H. by rewrite IH.
Qed.

Lemma Cut_app_l s t sep a b :
  Cut s sep = Some (a, b) -> Cut (s +:+ t) sep = Some (a, b +:+ t).
Proof.
  revert a. induction s as [|x s IH]; simpl; intros a; [done|].
  destruct (Ascii.eqb x sep).
  - by intros [= <- <-].
  - destruct (Cut s sep) as [[a' b']|]; [|done].
    intros [= <- <-]. by rewrite (IH a').
Qed.

Lemma Cut_app_None s t sep :
  Cut s sep = None -> Cut (s +:+ String sep t) sep = Some (s, t).
Proof.
  induction s as [|x s IH]; simpl.
  - intros _. by rewrite Ascii.eqb_refl.
  - destruct (Ascii.eqb x sep); [done|].
    destruct (Cut s sep) as [[a' b']|]; [done|].
    intros _. by rewrite IH.
Qed.

Lemma genSplit_SS s sep n :
  genSplit s sep (S (S n)) =
  match Cut s sep with
  | None => [s]
  | Some (a, b) => a :: genSplit b sep (S n)
  end.
Proof. reflexivity. Qed.

Lemma genSplit_not_nil s sep n : genSplit s sep (S n) <> [].
Proof.
  destruct n as [|n]; simpl; [done|].
  by destruct (Cut s sep) as [[a b]|].
Qed.

Lemma genSplit_empty sep n : genSplit "" sep (S n) = [""].
Proof. by destruct n. Qed.

Lemma Split_not_nil s sep : Split s sep <> [].
Proof. apply genSplit_not_nil. Qed.

Lemma last_cons_not_nil {A} (x : A) l d : l <> [] -> List.last (x :: l) d = List.last l d.
Proof. by destruct l. Qed.

(** A string that ends with the separator splits into pieces whose last
    one is empty. *)
Lemma genSplit_trailing_sep sep n s d :
  (Count (s +:+ String sep "") sep < n)%nat ->
  List.last (genSplit (s +:+ String sep "") sep n) d = "".
Proof.
  revert s. induction n as [|n IH]; intros s Hn; [lia|].
  destruct n as [|n].
  { destruct (Cut s sep) as [[a b]|] eqn:Hc.
    - apply (Cut_app_l _ (String sep "")) in Hc.
      apply Cut_Some_Count in Hc. lia.
    - apply (Cut_app_None _ "") in Hc. apply Cut_Some_Count in Hc. lia. }
  rewrite genSplit_SS.
  destruct (Cut s sep) as [[a b]|] eqn:Hc.
  - pose proof (Cut_app_l _ (String sep "") _ _ _ Hc) as Hc'.
    rewrite Hc'. apply Cut_Some_Count in Hc'.
    rewrite last_cons_not_nil by apply genSplit_not_nil.
    apply IH. lia.
  - rewrite (Cut_app_None _ "" _ Hc).
    rewrite last_cons_not_nil by apply genSplit_not_nil.
    by rewrite genSplit_empty.
Qed.

Lemma Split_trailing_sep s sep d : List.last (Split (s +:+ String sep "") sep) d = "".
Proof. apply genSplit_trailing_sep. lia. Qed.

Lemma Count_free s sep : ContainsByte s sep = false -> Count s sep = 0%nat.
Proof. intros H. by apply Cut_None_Count, Cut_free. Qed.

Lemma Count_app a b sep : Count (a +:+ b) sep = (Count a sep + Count b sep)%nat.
Proof. induction a as [|x a IH]; simpl; [done|]. rewrite IH. lia. Qed.

(** Splitting a join of separator-free pieces gives the pieces back. *)
Lemma genSplit_Join (elems : list string) sep n :
  elems <> [] ->
  Forall (fun e => ContainsByte e sep = false) elems ->
  (length elems <= n)%nat ->
  genSplit (Join elems (String sep "")) sep n = elems.
Proof.
  revert n. induction elems as [|x [|y r] IH]; intros n Hne Hfree Hn; [done| |].
  - apply Forall_cons in Hfree as [Hx _]. simpl in *.
    destruct n as [|[|n]]; [lia|done|]. rewrite genSplit_SS. by rewrite Cut_free.
  - apply Forall_cons in Hfree as [Hx Hr].
    destruct n as [|[|n]]; simpl in Hn; [lia..|].
    change (Join (x :: y :: r) (String sep ""))
      with (x +:+ String sep (Join (y :: r) (String sep ""))).
    rewrite genSplit_SS, Cut_app_sep by done.
    f_equal. apply IH; [done|done|simpl; lia].
Qed.

Lemma Count_Join (elems : list string) sep :
  Forall (fun e => ContainsByte e sep = false) elems ->
  Count (Join elems (String sep "")) sep = pred (length elems).
Proof.
  induction elems as [|x [|y r] IH]; intros Hfree; [done| |].
  - apply Forall_cons in Hfree as [Hx _]. simpl. by apply Count_free.
  - apply Forall_cons in Hfree as [Hx Hr].
    change (Join (x :: y :: r) (String sep ""))
      with (x +:+ String sep (Join (y :: r) (String sep ""))).
    rewrite Count_app. cbn [Count]. rewrite Ascii.eqb_refl, (Count_free x) by done.
    rewrite IH by done. simpl. lia.
Qed.

Lemma Split_Join (elems : list string) sep :
  elems <> [] ->
  Forall (fun e => ContainsByte e sep = false) elems ->
  Split (Join elems (String sep "")) sep = elems.
Proof.
  intros Hne Hfree.
  change (genSplit (Join elems (String sep "")) sep
            (S (Count (Join elems (String sep "")) sep)) = elems).
  apply genSplit_Join; [done..|]. rewrite Count_Join by done. lia.
Qed.

Lemma ContainsAny_Join (elems : list string) sep chars :
  ContainsByte chars sep = false ->
  Forall (fun e => ContainsAny e chars = false) elems ->
  ContainsAny (Join elems (String sep "")) chars = false.
Proof.
  intros Hsep. induction elems as [|x [|y r] IH]; intros Hfree; [done| |].
  - by apply Forall_cons in Hfree as [Hx _].
  - apply Forall_cons in Hfree as [Hx Hr].
    change (Join (x :: y :: r) (String sep ""))
      with (x +:+ String sep (Join (y :: r) (String sep ""))).
    rewrite ContainsAny_app, Hx. cbn [ContainsAny orb]. rewrite Hsep.
    by apply IH.
Qed.

Lemma Join_not_empty (elems : list string) sep :
  elems <> [] -> Forall (fun e => e <> "") elems -> Join elems sep <> "".
Proof.
  destruct elems as [|x [|y r]]; intros Hne Hall; [done| |].
  - by apply Forall_cons in Hall as [Hx _].
  - apply Forall_cons in Hall as [Hx _]. simpl. by destruct x.
Qed.

End StringFacts.

(** ** DatasetPath *)

Lemma comps_equal_refl (a : list string) : comps_equal a a = true.
Proof. induction a as [|x a IH]; simpl; [done|]. by rewrite String.eqb_refl. Qed.

Lemma Equal_refl (p : DatasetPath) : Equal p p = true.
Proof. unfold Equal. rewrite Z.eqb_refl. apply comps_equal_refl. Qed.

Lemma last_in_Forall {A} (P : A -> Prop) (l : list A) d :
  l <> [] -> Forall P l -> P (List.last l d).
Proof.
  induction l as [|x [|y r] IH]; intros Hne Hall; [done| |].
  - by apply Forall_cons in Hall as [Hx _].
  - apply Forall_cons in Hall as [_ Hr]. by apply IH.
Qed.

Example NewDatasetPath_ex1 :
  NewDatasetPath "tank/data" = (mkDatasetPath ["tank"; "data"], None).
Proof. reflexivity. Qed.

Example NewDatasetPath_ex2 :
  NewDatasetPath "tank/" = (mkDatasetPath ["tank"; ""], Some ErrTrailingSlash).
Proof. reflexivity. Qed.

Example NewDatasetPath_ex3 : snd (NewDatasetPath "tank/a b") = Some ErrForbiddenChars.
Proof. reflexivity. Qed.

Example TrimNPrefixComps_ex1 :
  TrimNPrefixComps (mkDatasetPath ["a"; "b"; "c"]) 1 = Some (mkDatasetPath ["b"; "c"]).
Proof. reflexivity. Qed.

Example TrimNPrefixComps_ex2 :
  TrimNPrefixComps (mkDatasetPath ["a"; "b"; "c"]) 7 = Some (mkDatasetPath []).
Proof. reflexivity. Qed.

Example TrimNPrefixComps_ex3 :
  TrimNPrefixComps (mkDatasetPath ["a"; "b"; "c"]) (-1) = None.
Proof. reflexivity. Qed.

(** C6, as stated, fails: a component may hold a [/], which is not one of
    the forbidden characters; the path with the single component [a/b]
    prints as [a/b] and parses into the two components [a] and [b]. *)
Lemma roundtrip_slash_component_cex :
  ~ (forall p : DatasetPath,
       Forall (fun c => c <> "" /\ strings.ContainsAny c FORBIDDEN = false) (comps p) ->
       exists q, NewDatasetPath (ToString p) = (q, None) /\ Equal q p = true).
Proof.
  intros H. destruct (H (mkDatasetPath ["a/b"])) as (q & Hq & He).
  - apply Forall_cons. split; [|done]. split; [done|]. reflexivity.
  - vm_compute in Hq. injection Hq as <-. vm_compute in He. discriminate.
Qed.

(** C6 (amended): for every path whose components are non-empty, free of the
    forbidden characters and free of [/], parsing the string form succeeds
    and gives the path back: [NewDatasetPath (ToString p)] is [(p, nil)], and
    the parsed path is [Equal] to [p]. *)
Theorem NewDatasetPath_ToString_roundtrip (p : DatasetPath) :
  Forall (fun c => c <> ""
                   /\ strings.ContainsAny c FORBIDDEN = false
                   /\ strings.ContainsByte c "/" = false) (comps p) ->
  NewDatasetPath (ToString p) = (p, None)
  /\ Equal (fst (NewDatasetPath (ToString p))) p = true.
Proof.
  intros Hall.
  assert (NewDatasetPath (ToString p) = (p, None)) as Hparse.
  { destruct p as [cs]. simpl in Hall. destruct (decide (cs = [])) as [->|Hne]; [done|].
    unfold NewDatasetPath, ToString. cbn [comps].
    assert (strings.Join cs "/" <> "") as Hs.
    { apply Join_not_empty; [done|]. eapply Forall_impl; [exact Hall|]. by intros c [? _]. }
    apply String.eqb_neq in Hs. rewrite Hs.
    rewrite (ContainsAny_Join cs "/" FORBIDDEN); [|done|].
    2:{ eapply Forall_impl; [exact Hall|]. by intros c (_ & ? & _). }
    rewrite (Split_Join cs "/"); [|done|].
    2:{ eapply Forall_impl; [exact Hall|]. by intros c (_ & _ & ?). }
    assert (List.last cs "x" <> "") as Hl.
    { apply (last_in_Forall (fun c => c <> "")); [done|].
      eapply Forall_impl; [exact Hall|]. by intros c [? _]. }
    apply String.eqb_neq in Hl. by rewrite Hl. }
  split; [done|]. rewrite Hparse. apply Equal_refl.
Qed.

Lemma NewDatasetPath_ToString_roundtrip_witness :
  NewDatasetPath (ToString (mkDatasetPath ["tank"; "data"; "home"]))
    = (mkDatasetPath ["tank"; "data"; "home"], None)
  /\ Equal (fst (NewDatasetPath (ToString (mkDatasetPath ["tank"; "data"; "home"]))))
       (mkDatasetPath ["tank"; "data"; "home"]) = true.
Proof.
  apply (NewDatasetPath_ToString_roundtrip (mkDatasetPath ["tank"; "data"; "home"])).
  repeat (apply Forall_cons; split; [repeat split; [discriminate|reflexivity..]|]).
  apply Forall_nil. exact I.
Defined.

(** C7, as stated, fails: only the last component is checked, so [a//b]
    is accepted with an empty second component. *)
Lemma NewDatasetPath_empty_component_cex :
  ~ (forall (s : string) (p : DatasetPath),
       NewDatasetPath s = (p, None) -> Forall (fun c => c <> "") (comps p)).
Proof.
  intros H.
  pose proof (H "a//b" (mkDatasetPath ["a"; ""; "b"]) eq_refl) as Hall.
  apply Forall_cons in Hall as [_ Hall]. apply Forall_cons in Hall as [Hempty _].
  by apply Hempty.
Qed.

(** C7 (amended): for every string [s] that [NewDatasetPath] accepts, the
    empty input gives the zero-component path, and every other input gives
    the pieces of [s] between the slashes, at least one, the last of which
    is not empty. *)
Theorem NewDatasetPath_last_component_nonempty (s : string) (p : DatasetPath) :
  NewDatasetPath s = (p, None) ->
  (s = "" -> comps p = [])
  /\ (s <> "" ->
      comps p = strings.Split s "/"
      /\ exists init l, comps p = init ++ [l] /\ l <> "").
Proof.
  unfold NewDatasetPath. intros H. split.
  - intros ->. simpl in H. by injection H as <-.
  - intros Hs. apply String.eqb_neq in Hs. rewrite Hs in H.
    destruct (strings.ContainsAny s FORBIDDEN); [done|]. cbn [comps] in H.
    destruct (String.eqb (List.last (strings.Split s "/") "x") "") eqn:Hl; [done|].
    injection H as <-. cbn [comps]. split; [done|].
    apply String.eqb_neq in Hl.
    destruct (exists_last (Split_not_nil s "/")) as (init & l & Heq).
    exists init, l. split; [done|]. rewrite Heq in Hl. by rewrite last_last in Hl.
Qed.

Lemma NewDatasetPath_last_component_nonempty_witness :
  ("/a" = "" -> comps (mkDatasetPath [""; "a"]) = [])
  /\ ("/a" <> "" ->
      comps (mkDatasetPath [""; "a"]) = strings.Split "/a" "/"
      /\ exists init l, comps (mkDatasetPath [""; "a"]) = init ++ [l] /\ l <> "").
Proof.
  apply (NewDatasetPath_last_component_nonempty "/a" (mkDatasetPath [""; "a"])).
  reflexivity.
Defined.

(** C8: [NewDatasetPath] accepts the empty string and gives the empty path,
    of length 0; it fails with a validation error for every string that
    holds one of the characters [@ # | tab space < > *], and for every
    non-empty string that ends in [/]. *)
Theorem NewDatasetPath_validation (s : string) :
  (s = "" ->
     NewDatasetPath s = (mkDatasetPath [], None)
     /\ Length (fst (NewDatasetPath s)) = 0
     /\ Empty (fst (NewDatasetPath s)) = true)
  /\ (forall c, In c forbidden_chars -> strings.ContainsByte s c = true ->
        snd (NewDatasetPath s) = Some ErrForbiddenChars)
  /\ (s <> "" -> (exists s', s = s' +:+ "/") ->
        exists e, snd (NewDatasetPath s) = Some e /\ is_validation_error e = true).
Proof.
  split; [|split].
  - by intros ->.
  - intros c Hc Hs. unfold NewDatasetPath.
    destruct (String.eqb_spec s "") as [->|_]; [done|].
    rewrite (ContainsAny_byte s FORBIDDEN c); [done| |done].
    simpl in Hc. by repeat destruct Hc as [<-|Hc].
  - intros Hs [s' ->]. unfold NewDatasetPath.
    apply String.eqb_neq in Hs. rewrite Hs.
    destruct (strings.ContainsAny _ FORBIDDEN); [by eexists|].
    cbn [comps]. rewrite (Split_trailing_sep s' "/" "x"). by eexists.
Qed.

Lemma NewDatasetPath_validation_witness :
  snd (NewDatasetPath "tank/da ta") = Some ErrForbiddenChars
  /\ exists e, snd (NewDatasetPath "tank/data/") = Some e /\ is_validation_error e = true.
Proof.
  split.
  - apply (proj1 (proj2 (NewDatasetPath_validation "tank/da ta")) " "%char).
    + simpl. tauto.
    + reflexivity.
  - apply (proj2 (proj2 (NewDatasetPath_validation "tank/data/"))).
    + discriminate.
    + exists "tank/data". reflexivity.
Defined.

(** C10: [TrimNPrefixComps] completes for every [n >= 0] and leaves the last
    [max (length p - n) 0] components; for every [n < 0] the clamp does not
    apply and the slice expression [p.comps[n:]] is out of range: a panic. *)
Theorem TrimNPrefixComps_total_iff_nonneg (p : DatasetPath) (n : Z) :
  (0 <= n ->
     exists q, TrimNPrefixComps p n = Some q
       /\ Length q = Z.max (Length p - n) 0
       /\ comps q = drop (length (comps p) - Z.to_nat (Z.max (Length p - n) 0)) (comps p))
  /\ (n < 0 ->
     TrimNPrefixComps p n = None
     /\ slice_from (comps p) n = None).
Proof.
  unfold TrimNPrefixComps, Length, slice_from, len. split.
  - intros Hn.
    destruct (Z.ltb_spec (Z.of_nat (length (comps p))) n) as [Hlt|Hge].
    + destruct (Z.eqb_spec (Z.of_nat (length (comps p))) 0) as [H0|H0].
      * exists p. split; [done|]. split; [lia|].
        replace (length (comps p)) with 0%nat by lia. by destruct (comps p).
      * rewrite (proj2 (Z.leb_le _ _)) by lia. rewrite Z.leb_refl. simpl.
        eexists. split; [done|]. cbn [comps]. rewrite length_drop. split; [lia|].
        f_equal. lia.
    + destruct (Z.eqb_spec n 0) as [->|H0].
      * exists p. split; [done|]. split; [lia|].
        replace (_ - _)%nat with 0%nat by lia. done.
      * rewrite (proj2 (Z.leb_le 0 n)), (proj2 (Z.leb_le n _)) by lia. simpl.
        eexists. split; [done|]. cbn [comps]. rewrite length_drop. split; [lia|].
        f_equal. lia.
  - intros Hn.
    rewrite (proj2 (Z.ltb_ge _ _)) by lia.
    rewrite (proj2 (Z.eqb_neq _ _)) by lia.
    rewrite (proj2 (Z.leb_gt _ _)) by lia. done.
Qed.

Lemma TrimNPrefixComps_total_iff_nonneg_witness :
  (exists q, TrimNPrefixComps (mkDatasetPath ["a"; "b"; "c"]) 2 = Some q
     /\ Length q = Z.max (Length (mkDatasetPath ["a"; "b"; "c"]) - 2) 0
     /\ comps q = drop (length (comps (mkDatasetPath ["a"; "b"; "c"]))
                        - Z.to_nat (Z.max (Length (mkDatasetPath ["a"; "b"; "c"]) - 2) 0))
                    (comps (mkDatasetPath ["a"; "b"; "c"])))
  /\ (TrimNPrefixComps (mkDatasetPath ["a"; "b"; "c"]) (-1) = None
      /\ slice_from (comps (mkDatasetPath ["a"; "b"; "c"])) (-1) = None).
Proof.
  split.
  - apply (proj1 (TrimNPrefixComps_total_iff_nonneg (mkDatasetPath ["a"; "b"; "c"]) 2)). lia.
  - apply (proj2 (TrimNPrefixComps_total_iff_nonneg (mkDatasetPath ["a"; "b"; "c"]) (-1))). lia.
Defined.

(** Closes a goal [Exists is_recv_event l -> _] for a list [l] without
    [recv] events. *)
Ltac no_recv_event :=
  let H := fresh "H" in
  intros H;
  repeat (apply Exists_cons in H as [H|H]; [done|]);
  by apply Exists_nil in H.

Ltac io_unfold :=
  unfold mbind, mret, IO_bind, IO_ret, io_bind, io_ret in *.

(** ** The scanner and ZFSList *)

Example Scanner_ex1 :
  Scanner ("tank/data" +:+ String strings.tab ("-" +:+ String strings.newline "")) 1024
  = (["tank/data" +:+ String strings.tab "-"], None).
Proof. reflexivity. Qed.

Example Scanner_ex2 : Scanner ("ab" +:+ String strings.newline "cd") 1024 = (["ab"; "cd"], None).
Proof. reflexivity. Qed.

Example Scanner_ex3 :
  Scanner ("ab" +:+ String strings.newline long_line) 1024 = (["ab"], Some ErrTooLong).
Proof. vm_compute. reflexivity. Qed.

Example SplitN_ex1 :
  strings.SplitN ("a" +:+ String strings.tab ("b" +:+ String strings.tab "c")) strings.tab 2
  = ["a"; "b" +:+ String strings.tab "c"].
Proof. reflexivity. Qed.

Example SplitN_ex2 : strings.SplitN "abc" strings.tab 2 = ["abc"].
Proof. reflexivity. Qed.

Lemma ZFSList_loop_ok properties lines res :
  Forall (well_formed properties) lines ->
  ZFSList_loop properties lines res = (res ++ map (fields_of properties) lines, None).
Proof.
  revert res. induction lines as [|text rest IH]; intros res Hall; simpl.
  - by rewrite app_nil_r.
  - apply Forall_cons in Hall as [Hok Hrest]. unfold well_formed in Hok.
    rewrite Hok, Z.eqb_refl. simpl. rewrite IH by done.
    by rewrite <- app_assoc.
Qed.

(** At the first malformed line the loop stops with the error, and the
    named result still holds the rows of the lines before it. *)
Lemma ZFSList_loop_bad properties good bad rest res :
  Forall (well_formed properties) good ->
  ~ well_formed properties bad ->
  ZFSList_loop properties (good ++ bad :: rest) res
  = (res ++ map (fields_of properties) good, Some ErrUnexpectedOutput).
Proof.
  revert res. induction good as [|text good IH]; intros res Hall Hbad; simpl.
  - unfold well_formed in Hbad. apply Z.eqb_neq in Hbad. rewrite Hbad. simpl.
    by rewrite app_nil_r.
  - apply Forall_cons in Hall as [Hok Hgood]. unfold well_formed in Hok.
    rewrite Hok, Z.eqb_refl. simpl. rewrite IH by done.
    by rewrite <- app_assoc.
Qed.

(** [ZFSList] once the process is started: the outcome is decided by the
    loop over the scanner's tokens and by [cmd.Wait()]; the error of the
    scanner takes no part in it. *)
Lemma ZFSList_started w properties zfsArgs :
  let cmd := mkCmd (ZFS_BINARY w) (list_args properties zfsArgs) in
  pipe_err (run w cmd) = None ->
  start_err (run w cmd) = None ->
  ZFSList w properties zfsArgs =
    match ZFSList_loop properties (fst (Scanner (stdout (run w cmd)) 1024)) [] with
    | (res, Some e) => ([EvCommand cmd; EvStart cmd], (res, Some e))
    | (res, None) =>
        ([EvCommand cmd; EvStart cmd; EvWait cmd],
         match wait_err (run w cmd) with
         | Some e => ([], Some (ZFSError (stderr (run w cmd)) e))
         | None => (res, None)
         end)
    end.
Proof.
  intros cmd Hpipe Hstart. unfold ZFSList, Command, Start, Wait. io_unfold.
  fold cmd. rewrite Hpipe, Hstart.
  destruct (Scanner (stdout (run w cmd)) 1024) as [lines scanErr]. cbn [fst].
  destruct (ZFSList_loop properties lines []) as [res [e|]]; [done|].
  by destruct (wait_err (run w cmd)).
Qed.

(** A malformed line among the tokens: the error for unexpected output, and
    with it the rows of the lines before. *)
Lemma ZFSList_bad_line w properties zfsArgs good bad rest :
  let cmd := mkCmd (ZFS_BINARY w) (list_args properties zfsArgs) in
  pipe_err (run w cmd) = None ->
  start_err (run w cmd) = None ->
  fst (Scanner (stdout (run w cmd)) 1024) = good ++ bad :: rest ->
  Forall (well_formed properties) good ->
  ~ well_formed properties bad ->
  result (ZFSList w properties zfsArgs)
  = (map (fields_of properties) good, Some ErrUnexpectedOutput).
Proof.
  intros cmd Hpipe Hstart Hlines Hgood Hbad.
  rewrite ZFSList_started by done. fold cmd. rewrite Hlines.
  by rewrite ZFSList_loop_bad.
Qed.

(** Well-formed tokens and exit status 0: the rows of the tokens and no
    error, whatever the scanner ended with. *)
Lemma ZFSList_scan_error_unread w properties zfsArgs scanErr lines :
  let cmd := mkCmd (ZFS_BINARY w) (list_args properties zfsArgs) in
  pipe_err (run w cmd) = None ->
  start_err (run w cmd) = None ->
  Scanner (stdout (run w cmd)) 1024 = (lines, scanErr) ->
  Forall (well_formed properties) lines ->
  wait_err (run w cmd) = None ->
  result (ZFSList w properties zfsArgs) = (map (fields_of properties) lines, None).
Proof.
  intros cmd Hpipe Hstart Hscan Hlines Hwait.
  rewrite ZFSList_started by done. fold cmd. rewrite Hscan. cbn [fst].
  rewrite ZFSList_loop_ok by done. cbn [app]. by rewrite Hwait.
Qed.

(** A failure to start and a failure of [cmd.Wait()] are reported. *)
Lemma ZFSList_start_failure w properties zfsArgs e :
  let cmd := mkCmd (ZFS_BINARY w) (list_args properties zfsArgs) in
  pipe_err (run w cmd) = None ->
  start_err (run w cmd) = Some e ->
  result (ZFSList w properties zfsArgs) = ([], Some e).
Proof.
  intros cmd Hpipe Hstart. unfold ZFSList, Command, Start. io_unfold.
  fold cmd. by rewrite Hpipe, Hstart.
Qed.

Lemma ZFSList_wait_failure w properties zfsArgs e :
  let cmd := mkCmd (ZFS_BINARY w) (list_args properties zfsArgs) in
  pipe_err (run w cmd) = None ->
  start_err (run w cmd) = None ->
  Forall (well_formed properties) (fst (Scanner (stdout (run w cmd)) 1024)) ->
  wait_err (run w cmd) = Some e ->
  result (ZFSList w properties zfsArgs) = ([], Some (ZFSError (stderr (run w cmd)) e)).
Proof.
  intros cmd Hpipe Hstart Hlines Hwait.
  rewrite ZFSList_started by done. fold cmd.
  rewrite ZFSList_loop_ok by done. cbn [app]. by rewrite Hwait.
Qed.

(** C4: the call fails with the error for unexpected output, but the rows
    accumulated before the malformed line come back next to it.  Output
    [tank\t-\nbroken\n] for two properties: the first line has two fields,
    the second line has one, and [ZFSList] returns the row of the first line
    together with the error. *)
Theorem ZFSList_bad_line_returns_rows_so_far :
  let properties := ["name"; "receive_resume_token"] in
  let out := "tank" +:+ String strings.tab ("-" +:+ String strings.newline
               ("broken" +:+ String strings.newline "")) in
  Scanner out 1024 = (["tank" +:+ String strings.tab "-"; "broken"], None)
  /\ fields_of properties ("tank" +:+ String strings.tab "-") = ["tank"; "-"]
  /\ fields_of properties "broken" = ["broken"]
  /\ ~ well_formed properties "broken"
  /\ result (ZFSList (world_of out "") properties [])
     = ([["tank"; "-"]], Some ErrUnexpectedOutput).
Proof.
  intros properties out. split; [reflexivity|]. split; [reflexivity|].
  split; [reflexivity|]. split; [|reflexivity].
  unfold well_formed. vm_compute. discriminate.
Qed.

(** C5: an error of the scanner is dropped.  The process prints one good line
    and then a line that does not fit into the buffer, and exits with status
    0: [ZFSList] returns the rows read so far and no error, although the
    scanner stopped with [ErrTooLong]. *)
Theorem ZFSList_drops_scan_error :
  let out := "tank" +:+ String strings.newline long_line in
  Scanner out 1024 = (["tank"], Some ErrTooLong)
  /\ result (ZFSList (world_of out "") ["name"] []) = ([["tank"]], None)
  /\ result (ZFSListChan (world_of out "") ["name"] [])
     = [mkZFSListResult ["tank"] None; mkZFSListResult [] (Some ErrTooLong)].
Proof. vm_compute. done. Qed.

(** ** ZFSProperties and ZFSSet *)

Lemma Contains_byte s c : strings.Contains s (String c "") = strings.ContainsByte s c.
Proof.
  induction s as [|x s IH]; [done|].
  cbn [strings.Contains strings.ContainsByte String.prefix]. rewrite IH.
  destruct (Ascii.ascii_dec c x) as [->|Hne].
  - rewrite Ascii.eqb_refl. by destruct s.
  - by destruct (Ascii.eqb_spec x c) as [->|_].
Qed.

Lemma appendArgs_range_ok entries args :
  Forall (fun entry => strings.Contains (fst entry) "=" = false) entries ->
  appendArgs_range entries args = (args ++ map prop_token entries, None).
Proof.
  revert args. induction entries as [|[k v] rest IH]; intros args Hall; simpl.
  - by rewrite app_nil_r.
  - apply Forall_cons in Hall as [Hk Hrest]. simpl in Hk. rewrite Hk.
    rewrite IH by done. by rewrite <- app_assoc.
Qed.

Lemma appendArgs_range_err entries args :
  Exists (fun entry => strings.Contains (fst entry) "=" = true) entries ->
  snd (appendArgs_range entries args) = Some ErrPropContainsEq.
Proof.
  revert args. induction entries as [|[k v] rest IH]; intros args Hex; simpl.
  - by apply Exists_nil in Hex.
  - destruct (strings.Contains k "=") eqn:Hk; [done|].
    apply Exists_cons in Hex as [Hex|Hex]; [simpl in Hex; congruence|].
    by apply IH.
Qed.

(** The token of an entry whose name holds no [=] is the name, [=] and the
    value, and cutting it at the first [=] gives name and value back. *)
Lemma prop_token_format (k v : string) :
  strings.Contains k "=" = false ->
  prop_token (k, v) = k +:+ "=" +:+ v
  /\ strings.Cut (prop_token (k, v)) "=" = Some (k, v).
Proof.
  intros Hk. split; [done|]. unfold prop_token. cbn [fst snd].
  apply Cut_app_sep. by rewrite <- Contains_byte.
Qed.

(** C9: when some key of the property set contains [=], [ZFSSet] returns the
    error of the argument rendering and no command is created or started,
    whatever the order the map is visited in; when no key contains [=], the
    rendering succeeds and appends one token per entry, the token of the
    entry [(name, value)] being [name=value]: the tokens are the strings
    [name ++ "=" ++ value] of the entries in some order, and the entries are
    exactly the pairs that the tokens give when cut at their first [=]. *)
Theorem ZFSSet_rejects_delimiter_in_name
    (w : World) (fs : DatasetPath) (props : ZFSProperties) (args : list string) :
  range_visits_each_entry_once w ->
  ((exists k v, m props !! k = Some v /\ strings.Contains k "=" = true) ->
     snd (appendArgs w props args) = Some ErrPropContainsEq
     /\ ZFSSet w fs props = ([], Some ErrPropContainsEq))
  /\ ((forall k v, m props !! k = Some v -> strings.Contains k "=" = false) ->
     exists tokens,
       appendArgs w props args = (args ++ tokens, None)
       /\ tokens ≡ₚ map (fun entry => fst entry +:+ "=" +:+ snd entry)
                     (map_to_list (m props))
       /\ length tokens = size (m props)
       /\ (forall k v,
             m props !! k = Some v
             <-> exists t, t ∈ tokens /\ strings.Cut t "=" = Some (k, v))).
Proof.
  intros Hrange. pose proof (Hrange (m props)) as Hperm. split.
  - intros (k & v & Hkv & Hk).
    assert (forall a, snd (appendArgs w props a) = Some ErrPropContainsEq) as Herr.
    { intros a. apply appendArgs_range_err. apply Exists_exists.
      exists (k, v). split; [|done].
      rewrite Hperm. by apply elem_of_map_to_list. }
    split; [done|]. unfold ZFSSet.
    specialize (Herr ["set"]). destruct (appendArgs w props ["set"]) as [a e].
    simpl in Herr. by rewrite Herr.
  - intros Hfree. exists (map prop_token (map_range w (m props))).
    assert (forall k v, (k, v) ∈ map_range w (m props) <-> m props !! k = Some v) as Hin.
    { intros k v. rewrite Hperm. apply elem_of_map_to_list. }
    split; [|split; [|split]].
    + apply appendArgs_range_ok. apply Forall_forall. intros [k v] Hkv.
      apply Hin in Hkv. simpl. by eapply Hfree.
    + by rewrite Hperm.
    + rewrite length_map, Hperm. by rewrite length_map_to_list.
    + intros k v. split.
      * intros Hkv. exists (prop_token (k, v)). split.
        -- apply list_elem_of_In, in_map, list_elem_of_In. by apply Hin.
        -- apply prop_token_format. by eapply Hfree.
      * intros (t & Ht & Hcut).
        apply list_elem_of_In, in_map_iff in Ht as ([k' v'] & <- & Hkv').
        apply list_elem_of_In, Hin in Hkv'.
        destruct (prop_token_format k' v' (Hfree k' v' Hkv')) as [_ Hcut'].
        rewrite Hcut' in Hcut. by injection Hcut as <- <-.
Qed.

Lemma ZFSSet_rejects_delimiter_in_name_witness :
  (snd (appendArgs (world_of "" "") (Set_ NewZFSProperties "a=b" "1") ["set"])
     = Some ErrPropContainsEq
   /\ ZFSSet (world_of "" "") (mkDatasetPath ["tank"]) (Set_ NewZFSProperties "a=b" "1")
      = ([], Some ErrPropContainsEq))
  /\ exists tokens,
       appendArgs (world_of "" "") (Set_ NewZFSProperties "compression" "lz4") ["set"]
         = (["set"] ++ tokens, None)
       /\ tokens ≡ₚ map (fun entry => fst entry +:+ "=" +:+ snd entry)
                     (map_to_list (m (Set_ NewZFSProperties "compression" "lz4")))
       /\ length tokens = size (m (Set_ NewZFSProperties "compression" "lz4"))
       /\ (forall k v,
             m (Set_ NewZFSProperties "compression" "lz4") !! k = Some v
             <-> exists t, t ∈ tokens /\ strings.Cut t "=" = Some (k, v)).
Proof.
  assert (range_visits_each_entry_once (world_of "" "")) as Hrange by (intros ?; reflexivity).
  split.
  - apply (proj1 (ZFSSet_rejects_delimiter_in_name (world_of "" "") (mkDatasetPath ["tank"])
                    (Set_ NewZFSProperties "a=b" "1") ["set"] Hrange)).
    exists "a=b", "1". split; [apply lookup_insert_eq|reflexivity].
  - apply (proj2 (ZFSSet_rejects_delimiter_in_name (world_of "" "") (mkDatasetPath ["tank"])
                    (Set_ NewZFSProperties "compression" "lz4") ["set"] Hrange)).
    intros k v Hkv. simpl in Hkv. apply lookup_insert_Some in Hkv as [[<- _]|[_ Hkv]].
    + reflexivity.
    + by rewrite lookup_empty in Hkv.
Defined.

Example ZFSSet_ex1 :
  ZFSSet (world_of "" "") (mkDatasetPath ["tank"; "data"])
    (Set_ NewZFSProperties "compression" "lz4")
  = ([EvCommand (mkCmd "zfs" ["set"; "compression=lz4"; "tank/data"]);
      EvStart (mkCmd "zfs" ["set"; "compression=lz4"; "tank/data"]);
      EvWait (mkCmd "zfs" ["set"; "compression=lz4"; "tank/data"])], None).
Proof. vm_compute. reflexivity. Qed.

(** ** The pulling endpoint *)

(** C3: the sentinel is not normalised, and no record is returned.  The loop
    computes [token] and replaces [-] by the empty string, but the record is
    built from [res.Fields[1]]: for the output [tank/data\t-\n] the record
    it appends has the resume token [-].  The call then ends in a panic,
    whatever the scheduling: the deferred [close(ch)] finds the channel
    closed by [ZFSListChan]. *)
Theorem ListFilesystems_keeps_sentinel :
  let out := "tank/data" +:+ String strings.tab ("-" +:+ String strings.newline "") in
  result (ZFSListChan (world_of out "") ["name"; "receive_resume_token"] [])
    = [mkZFSListResult ["tank/data"; "-"] None]
  /\ ListFilesystems_loop [mkZFSListResult ["tank/data"; "-"] None] []
     = Some ([{| Path := "tank/data"; ResumeToken := "-" |}], None)
  /\ (forall caller_closes_first,
        result (ListFilesystems (world_of out "") (puller_of true) caller_closes_first)
        = Panics CloseOfClosedChannel).
Proof.
  intros out. split; [reflexivity|]. split; [reflexivity|].
  intros caller_closes_first. reflexivity.
Qed.

(** Every row with two fields is copied as it is, whatever its token. *)
Lemma ListFilesystems_loop_rows (rows : list (string * string)) fss :
  ListFilesystems_loop (map (fun r => mkZFSListResult [fst r; snd r] None) rows) fss
  = Some (fss ++ map (fun r => {| Path := fst r; ResumeToken := snd r |}) rows, None).
Proof.
  revert fss. induction rows as [|[a b] rows IH]; intros fss; simpl.
  - by rewrite app_nil_r.
  - rewrite IH. by rewrite <- app_assoc.
Qed.

Section PullerFacts.

Context {FilesystemVersion FilesystemVersionFilter : Type}.
Variable filesystem_versions :
  DatasetPath -> FilesystemVersionFilter -> list FilesystemVersion * option error.
Variable w : World.
Variable p : Puller FilesystemVersionFilter.

(** C2: when the path parses and the inverted filter answers [(false, nil)]
    for it, [ListFilesystemVersions] and [Receive] return the filtered
    error for that path and cause no event at all: no version listing, no
    token read, no receive. *)
Theorem filtered_path_runs_nothing (fs token : string) (dp : DatasetPath)
    (f : DatasetFilter) :
  NewDatasetPath fs = (dp, None) ->
  InvertedFilter (Mapping p) = (f, None) ->
  Filter f dp = (false, None) ->
  ListFilesystemVersions filesystem_versions w p fs = ([], ([], Some (FilteredError fs)))
  /\ Receive w p (mkReceiveRequest fs token) = ([], (None, Some (FilteredError fs))).
Proof.
  intros Hdp Hinv Hf. unfold ListFilesystemVersions, Receive. cbn [req_Filesystem].
  by rewrite Hdp, Hinv, Hf.
Qed.

Lemma ZFSRecvWriter_trace_recv dp :
  Forall (fun e => is_recv_event e = true) (trace (ZFSRecvWriter w dp [])).
Proof.
  unfold ZFSRecvWriter, NewIOCommand, Start. io_unfold.
  destruct (create_err _); simpl; [by repeat constructor|].
  destruct (start_err _); simpl; by repeat constructor.
Qed.

Lemma ZFSRecvWriter_trace_head dp :
  exists rest,
    trace (ZFSRecvWriter w dp [])
    = EvCommand (mkCmd (ZFS_BINARY w) ["recv"; ToString dp]) :: rest.
Proof.
  unfold ZFSRecvWriter, NewIOCommand, Start. io_unfold.
  destruct (create_err _); simpl; [by eexists|].
  destruct (start_err _); simpl; by eexists.
Qed.

(** What [Receive] does once the path is parsed and passes the filter, for
    a request with a resume token. *)
Lemma Receive_with_token (r : ReceiveRequest) (dp : DatasetPath) (f : DatasetFilter) :
  req_ResumeToken r <> "" ->
  NewDatasetPath (req_Filesystem r) = (dp, None) ->
  InvertedFilter (Mapping p) = (f, None) ->
  Filter f dp = (true, None) ->
  Receive w p r =
    match receive_resume_token w dp with
    | (_, Some e) => ([EvZFSGetReceiveResumeToken dp], (None, Some e))
    | (localToken, None) =>
        if String.eqb localToken (req_ResumeToken r)
        then (EvZFSGetReceiveResumeToken dp :: trace (ZFSRecvWriter w dp []),
              result (ZFSRecvWriter w dp []))
        else ([EvZFSGetReceiveResumeToken dp], (None, Some ErrResumeTokenMismatch))
    end.
Proof.
  intros Htok Hdp Hinv Hf. unfold Receive. rewrite Hdp, Hinv, Hf. cbn [negb].
  apply String.eqb_neq in Htok. rewrite Htok. cbn [negb].
  unfold ZFSGetReceiveResumeToken. io_unfold.
  destruct (receive_resume_token w dp) as [localToken [e|]]; [done|].
  destruct (String.eqb localToken (req_ResumeToken r)); [|done]. cbn [negb].
  unfold ZFSRecvWriter, NewIOCommand, Start, trace, result. io_unfold.
  destruct (create_err _); [done|]. by destruct (start_err _).
Qed.

(** Without passing the parse and the filter, [Receive] causes no event. *)
Lemma Receive_stopped_early (r : ReceiveRequest) :
  Filter (fst (InvertedFilter (Mapping p))) (fst (NewDatasetPath (req_Filesystem r)))
    <> (true, None)
  \/ snd (InvertedFilter (Mapping p)) <> None
  \/ snd (NewDatasetPath (req_Filesystem r)) <> None ->
  trace (Receive w p r) = [] /\ fst (result (Receive w p r)) = None
  /\ snd (result (Receive w p r)) <> None.
Proof.
  unfold Receive.
  destruct (NewDatasetPath (req_Filesystem r)) as [dp [e|]]; [done|].
  destruct (InvertedFilter (Mapping p)) as [f [e|]]; [done|].
  cbn [fst snd].
  destruct (Filter f dp) as [[|] [e|]]; try done.
  intros [H|[H|H]]; done.
Qed.

Lemma classic_reached (r : ReceiveRequest) :
  (snd (NewDatasetPath (req_Filesystem r)) = None
   /\ snd (InvertedFilter (Mapping p)) = None
   /\ Filter (fst (InvertedFilter (Mapping p))) (fst (NewDatasetPath (req_Filesystem r)))
      = (true, None))
  \/ (Filter (fst (InvertedFilter (Mapping p))) (fst (NewDatasetPath (req_Filesystem r)))
        <> (true, None)
      \/ snd (InvertedFilter (Mapping p)) <> None
      \/ snd (NewDatasetPath (req_Filesystem r)) <> None).
Proof.
  destruct (snd (NewDatasetPath (req_Filesystem r))); [by right; right; right|].
  destruct (snd (InvertedFilter (Mapping p))); [by right; right; left|].
  destruct (Filter _ _) as [[|] [e|]]; [by right; left|by left|by right; left..].
Qed.

(** C1: for a request with a non-empty resume token, [Receive] reads the
    local token of the parsed path (once the path is parsed and passes the
    filter), and starts the receive only if the token was read without
    error and equals the requested one; when the local token differs, the
    empty one included, it returns an error and no writer, and no [recv]
    command is created or started. *)
Theorem Receive_resume_token_gate (r : ReceiveRequest) :
  req_ResumeToken r <> "" ->
  let dp := fst (NewDatasetPath (req_Filesystem r)) in
  let localToken := fst (receive_resume_token w dp) in
  let tokenErr := snd (receive_resume_token w dp) in
  let reached :=
    snd (NewDatasetPath (req_Filesystem r)) = None
    /\ snd (InvertedFilter (Mapping p)) = None
    /\ Filter (fst (InvertedFilter (Mapping p))) dp = (true, None) in
  let out := Receive w p r in
  (reached -> exists rest, trace out = EvZFSGetReceiveResumeToken dp :: rest)
  /\ (Exists (fun e => is_recv_event e = true) (trace out) ->
        reached
        /\ EvZFSGetReceiveResumeToken dp ∈ trace out
        /\ tokenErr = None
        /\ localToken = req_ResumeToken r)
  /\ (localToken <> req_ResumeToken r ->
        fst (result out) = None
        /\ snd (result out) <> None
        /\ Forall (fun e => is_recv_event e = false) (trace out))
  /\ (reached -> tokenErr = None -> localToken <> req_ResumeToken r ->
        out = ([EvZFSGetReceiveResumeToken dp], (None, Some ErrResumeTokenMismatch)))
  /\ (reached -> tokenErr = None -> localToken = req_ResumeToken r ->
        trace out = EvZFSGetReceiveResumeToken dp :: trace (ZFSRecvWriter w dp [])
        /\ result out = result (ZFSRecvWriter w dp [])
        /\ exists rest, trace (ZFSRecvWriter w dp [])
              = EvCommand (mkCmd (ZFS_BINARY w) ["recv"; ToString dp]) :: rest).
Proof.
  intros Htok dp localToken tokenErr reached out.
  destruct (classic_reached r) as [Hreach|Hstop].
  - (* the check is reached *)
    destruct Hreach as (Hdp & Hinv & Hf).
    assert (out = match receive_resume_token w dp with
                  | (_, Some e) => ([EvZFSGetReceiveResumeToken dp], (None, Some e))
                  | (t, None) =>
                      if String.eqb t (req_ResumeToken r)
                      then (EvZFSGetReceiveResumeToken dp :: trace (ZFSRecvWriter w dp []),
                            result (ZFSRecvWriter w dp []))
                      else ([EvZFSGetReceiveResumeToken dp],
                            (None, Some ErrResumeTokenMismatch))
                  end) as Hout.
    { apply (Receive_with_token r dp (fst (InvertedFilter (Mapping p)))); [done| | |done].
      - subst dp. destruct (NewDatasetPath (req_Filesystem r)); simpl in *; congruence.
      - destruct (InvertedFilter (Mapping p)); simpl in *; congruence. }
    assert (reached) as Hreached by done.
    subst localToken tokenErr. clearbody out dp reached. clear Hdp Hinv Hf.
    destruct (receive_resume_token w dp) as [t [e|]]; cbn [fst snd] in *.
    + (* reading the token fails *)
      subst out. cbn [trace result fst snd].
      refine (conj _ (conj _ (conj _ (conj _ _)))).
      * intros _. by eexists.
      * no_recv_event.
      * intros _. split; [done|]. split; [done|]. by repeat constructor.
      * done.
      * done.
    + destruct (String.eqb_spec t (req_ResumeToken r)) as [Heq|Hne];
        subst out; cbn [trace result fst snd].
      * (* the tokens are equal *)
        refine (conj _ (conj _ (conj _ (conj _ _)))).
        -- intros _. by eexists.
        -- intros _. split; [done|]. split; [apply list_elem_of_here|done].
        -- done.
        -- done.
        -- intros _ _ _. split; [done|]. split; [done|]. apply ZFSRecvWriter_trace_head.
      * (* the tokens differ *)
        refine (conj _ (conj _ (conj _ (conj _ _)))).
        -- intros _. by eexists.
        -- no_recv_event.
        -- intros _. split; [done|]. split; [done|]. by repeat constructor.
        -- done.
        -- done.
  - (* the call ends before the check *)
    assert (~ reached) as Hnot.
    { subst reached dp. intros (H1 & H2 & H3). destruct Hstop as [H|[H|H]]; done. }
    destruct (Receive_stopped_early r Hstop) as (Htr & Hw & He).
    subst out. rewrite Htr.
    refine (conj _ (conj _ (conj _ (conj _ _)))); try done.
    no_recv_event.
Qed.

End PullerFacts.

Lemma filtered_path_runs_nothing_witness :
  ListFilesystemVersions (fun _ _ => ([tt], None)) (world_of "" "") (puller_of false) "tank/data"
    = ([], ([], Some (FilteredError "tank/data")))
  /\ Receive (world_of "" "") (puller_of false) (mkReceiveRequest "tank/data" "abc")
     = ([], (None, Some (FilteredError "tank/data"))).
Proof.
  apply (filtered_path_runs_nothing (fun _ _ => ([tt], None)) (world_of "" "")
           (puller_of false) "tank/data" "abc"
           (mkDatasetPath ["tank"; "data"]) {| Filter := fun _ => (false, None) |}).
  - reflexivity.
  - reflexivity.
  - reflexivity.
Defined.

Lemma Receive_resume_token_gate_witness :
  Receive (world_of "" "xyz") (puller_of true) (mkReceiveRequest "tank/data" "abc")
    = ([EvZFSGetReceiveResumeToken (mkDatasetPath ["tank"; "data"])],
       (None, Some ErrResumeTokenMismatch))
  /\ trace (Receive (world_of "" "abc") (puller_of true) (mkReceiveRequest "tank/data" "abc"))
     = [EvZFSGetReceiveResumeToken (mkDatasetPath ["tank"; "data"]);
        EvCommand (mkCmd "zfs" ["recv"; "tank/data"]);
        EvStart (mkCmd "zfs" ["recv"; "tank/data"])].
Proof.
  split.
  - apply (proj1 (proj2 (proj2 (proj2
      (Receive_resume_token_gate (world_of "" "xyz") (puller_of true)
         (mkReceiveRequest "tank/data" "abc") ltac:(discriminate)))))).
    + repeat split; reflexivity.
    + reflexivity.
    + discriminate.
  - apply (proj2 (proj2 (proj2 (proj2
      (Receive_resume_token_gate (world_of "" "abc") (puller_of true)
         (mkReceiveRequest "tank/data" "abc") ltac:(discriminate)))))).
    + repeat split; reflexivity.
    + reflexivity.
    + reflexivity.
Defined.

Example Receive_without_token :
  Receive (world_of "" "xyz") (puller_of true) (mkReceiveRequest "tank/data" "")
  = ([EvCommand (mkCmd "zfs" ["recv"; "tank/data"]);
      EvStart (mkCmd "zfs" ["recv"; "tank/data"])],
     (Some (StdinOf (mkCmd "zfs" ["recv"; "tank/data"])), None)).
Proof. reflexivity. Qed.

(** * Further properties *)

(** ** Splitting and joining *)

Section SplitFacts.

Import strings.

Lemma Cut_Some_eq s sep a b : Cut s sep = Some (a, b) -> s = a +:+ String sep b.
Proof.
  revert a b. induction s as [|x s IH]; simpl; intros a b; [done|].
  destruct (Ascii.eqb_spec x sep) as [->|_].
  - by intros [= <- <-].
  - destruct (Cut s sep) as [[a' b']|]; [|done].
    intros [= <- <-]. change (String x s = String x (a' +:+ String sep b')).
    f_equal. by apply IH.
Qed.

Lemma Cut_Some_free s sep a b : Cut s sep = Some (a, b) -> ContainsByte a sep = false.
Proof.
  revert a. induction s as [|x s IH]; simpl; intros a; [done|].
  destruct (Ascii.eqb x sep) eqn:Hx.
  - by intros [= <- <-].
  - destruct (Cut s sep) as [[a' b']|]; [|done].
    intros [= <- <-]. simpl. rewrite Hx. by apply IH.
Qed.

Lemma Cut_None_free s sep : Cut s sep = None -> ContainsByte s sep = false.
Proof.
  induction s as [|x s IH]; simpl; [done|].
  destruct (Ascii.eqb x sep); [done|].
  destruct (Cut s sep) as [[a' b']|]; [done|]. intros _. by apply IH.
Qed.

Lemma Join_cons x (l : list string) sep :
  l <> [] -> Join (x :: l) sep = x +:+ sep +:+ Join l sep.
Proof. by destruct l. Qed.

Lemma append_assoc (a b c : string) : (a +:+ b) +:+ c = a +:+ b +:+ c.
Proof.
  induction a as [|x a IH]; [done|].
  change (String x ((a +:+ b) +:+ c) = String x (a +:+ b +:+ c)). by rewrite IH.
Qed.

Lemma append_empty_r (a : string) : a +:+ "" = a.
Proof.
  induction a as [|x a IH]; [done|].
  change (String x (a +:+ "") = String x a). by rewrite IH.
Qed.

Lemma Join_app (a b : list string) sep :
  a <> [] -> b <> [] -> Join (a ++ b) sep = Join a sep +:+ sep +:+ Join b sep.
Proof.
  intros Ha Hb. induction a as [|x [|y a] IH]; [done| |].
  - simpl app. by rewrite Join_cons.
  - change ((x :: y :: a) ++ b) with (x :: ((y :: a) ++ b)).
    rewrite Join_cons by done. rewrite IH by done.
    rewrite (Join_cons x (y :: a)) by done. by rewrite !append_assoc.
Qed.

(** Joining the pieces of a split by the separator gives the string back. *)
Lemma Join_genSplit s sep n : Join (genSplit s sep (S n)) (String sep "") = s.
Proof.
  revert s. induction n as [|n IH]; intros s; [done|].
  rewrite genSplit_SS. destruct (Cut s sep) as [[a b]|] eqn:Hc; [|done].
  rewrite Join_cons by apply genSplit_not_nil. rewrite IH.
  by rewrite (Cut_Some_eq _ _ _ _ Hc).
Qed.

Lemma Join_Split s sep : Join (Split s sep) (String sep "") = s.
Proof. apply Join_genSplit. Qed.

Lemma Join_SplitN s sep n : n <> 0 -> Join (SplitN s sep n) (String sep "") = s.
Proof.
  intros Hn. unfold SplitN. apply Z.eqb_neq in Hn. rewrite Hn.
  destruct (n <? 0) eqn:Hneg; [apply Join_genSplit|].
  apply Z.eqb_neq in Hn. apply Z.ltb_ge in Hneg.
  destruct (Z.to_nat n) as [|k] eqn:Hk; [lia|]. apply Join_genSplit.
Qed.

Lemma ContainsAny_genSplit s sep chars n :
  ContainsAny s chars = false ->
  Forall (fun c => ContainsAny c chars = false) (genSplit s sep n).
Proof.
  revert s. induction n as [|[|n] IH]; intros s Hs; [constructor|by repeat constructor|].
  rewrite genSplit_SS. destruct (Cut s sep) as [[a b]|] eqn:Hc; [|by repeat constructor].
  rewrite (Cut_Some_eq _ _ _ _ Hc), ContainsAny_app in Hs.
  apply orb_false_iff in Hs as [Ha Hb]. simpl in Hb.
  apply orb_false_iff in Hb as [_ Hb]. constructor; [done|]. by apply IH.
Qed.

Lemma genSplit_sep_free s sep n :
  (Count s sep < n)%nat ->
  Forall (fun c => ContainsByte c sep = false) (genSplit s sep n).
Proof.
  revert s. induction n as [|[|n] IH]; intros s Hn; [lia| |].
  - repeat constructor. destruct (Cut s sep) as [[a b]|] eqn:Hc.
    + apply Cut_Some_Count in Hc. lia.
    + by apply Cut_None_free.
  - rewrite genSplit_SS. destruct (Cut s sep) as [[a b]|] eqn:Hc.
    + constructor; [by eapply Cut_Some_free|].
      apply IH. apply Cut_Some_Count in Hc. lia.
    + repeat constructor. by apply Cut_None_free.
Qed.

Lemma Split_sep_free s sep : Forall (fun c => ContainsByte c sep = false) (Split s sep).
Proof. apply genSplit_sep_free. lia. Qed.

Lemma ContainsAny_false_byte s chars c :
  ContainsAny s chars = false -> ContainsByte chars c = true -> ContainsByte s c = false.
Proof.
  intros Hs Hc. destruct (ContainsByte s c) eqn:H; [|done].
  by rewrite (ContainsAny_byte s chars c) in Hs.
Qed.

(** A non-empty string whose last piece is empty ends with the separator. *)
Lemma Split_last_empty s sep d :
  s <> "" -> List.last (Split s sep) d = "" -> exists s', s = s' +:+ String sep "".
Proof.
  intros Hs Hl.
  destruct (exists_last (Split_not_nil s sep)) as (init & l & Heq).
  rewrite Heq, last_last in Hl. subst l.
  pose proof (Join_Split s sep) as Hj. rewrite Heq in Hj.
  destruct init as [|x init].
  - simpl in Hj. congruence.
  - rewrite Join_app in Hj by done. simpl (Join [""] _) in Hj.
    exists (Join (x :: init) (String sep "")). by rewrite <- Hj.
Qed.

End SplitFacts.

(** ** Parsing dataset paths *)

(** X1: [NewDatasetPath] accepts exactly the empty string and the strings
    that hold none of the forbidden characters and do not end with [/]. *)
Theorem NewDatasetPath_accepts_iff (s : string) :
  snd (NewDatasetPath s) = None
  <-> s = ""
      \/ (strings.ContainsAny s FORBIDDEN = false /\ ~ exists s', s = s' +:+ "/").
Proof.
  unfold NewDatasetPath. destruct (String.eqb_spec s "") as [->|Hs].
  { split; [by left|done]. }
  destruct (strings.ContainsAny s FORBIDDEN) eqn:Hf.
  { split; [done|]. by intros [?|[? _]]. }
  cbn [comps]. destruct (String.eqb_spec (List.last (strings.Split s "/") "x") "") as [Hl|Hl].
  - split; [done|]. intros [?|[_ Hend]]; [done|]. exfalso. apply Hend.
    by apply (Split_last_empty s "/" "x").
  - split; [|done]. intros _. right. split; [done|]. intros [s' ->].
    by rewrite (Split_trailing_sep s' "/" "x") in Hl.
Qed.

Lemma ToString_parse (s : string) (p : DatasetPath) :
  NewDatasetPath s = (p, None) -> ToString p = s.
Proof.
  unfold NewDatasetPath. destruct (String.eqb_spec s "") as [->|Hs].
  { by intros [= <-]. }
  destruct (strings.ContainsAny s FORBIDDEN); [done|]. cbn [comps].
  destruct (String.eqb _ ""); [done|]. intros [= <-].
  apply (Join_Split s "/").
Qed.

(** X2: the string form of a parsed path is the string it was parsed from. *)
Theorem ToString_NewDatasetPath (s : string) (p : DatasetPath) :
  NewDatasetPath s = (p, None) -> ToString p = s.
Proof.
  unfold NewDatasetPath. destruct (String.eqb_spec s "") as [->|Hs].
  { by intros [= <-]. }
  destruct (strings.ContainsAny s FORBIDDEN); [done|]. cbn [comps].
  destruct (String.eqb _ ""); [done|]. intros [= <-].
  apply (Join_Split s "/").
Qed.

Lemma ToString_NewDatasetPath_witness : ToString (mkDatasetPath [""; "a"; ""; "b"]) = "/a//b".
Proof. apply (ToString_NewDatasetPath "/a//b"). reflexivity. Defined.

(** X3: no component of a parsed path holds a forbidden character or a
    [/]. *)
Theorem NewDatasetPath_components_clean (s : string) (p : DatasetPath) :
  NewDatasetPath s = (p, None) ->
  Forall (fun c => strings.ContainsAny c FORBIDDEN = false
                   /\ strings.ContainsByte c "/" = false) (comps p).
Proof.
  unfold NewDatasetPath. destruct (String.eqb_spec s "") as [->|Hs].
  { intros [= <-]. constructor. }
  destruct (strings.ContainsAny s FORBIDDEN) eqn:Hf; [done|]. cbn [comps].
  destruct (String.eqb _ ""); [done|]. intros [= <-]. cbn [comps].
  apply Forall_and. split.
  - by apply ContainsAny_genSplit.
  - apply Split_sep_free.
Qed.

Lemma NewDatasetPath_components_clean_witness :
  Forall (fun c => strings.ContainsAny c FORBIDDEN = false
                   /\ strings.ContainsByte c "/" = false)
    (comps (mkDatasetPath ["tank"; "data"])).
Proof. apply (NewDatasetPath_components_clean "tank/data"). reflexivity. Defined.

Lemma NewDatasetPath_accepts_iff_witness :
  snd (NewDatasetPath "tank/data") = None
  /\ ("tank/" = "" \/ (strings.ContainsAny "tank/" FORBIDDEN = false
                       /\ ~ exists s', "tank/" = s' +:+ "/") -> False).
Proof.
  split.
  - apply (proj2 (NewDatasetPath_accepts_iff "tank/data")). right. split; [reflexivity|].
    intros [s' Hs']. apply (f_equal (fun s => List.last (strings.Split s "/") "x")) in Hs'.
    rewrite (Split_trailing_sep s' "/" "x") in Hs'. discriminate.
  - intros H. apply (proj2 (NewDatasetPath_accepts_iff "tank/")) in H. discriminate.
Defined.

(** ** Equality of paths *)

Lemma comps_equal_eq (a b : list string) : comps_equal a b = true <-> a = b.
Proof.
  revert b. induction a as [|x a IH]; intros [|y b]; simpl; try done.
  rewrite andb_true_iff, IH, String.eqb_eq. split; [by intros [-> ->]|by intros [= -> ->]].
Qed.

Lemma Equal_eq (p q : DatasetPath) : Equal p q = true <-> p = q.
Proof.
  unfold Equal, len. destruct p as [a], q as [b]. cbn [comps].
  destruct (Z.eqb_spec (Z.of_nat (length a)) (Z.of_nat (length b))) as [Hl|Hl]; simpl.
  - rewrite comps_equal_eq. split; [by intros ->|by intros [= ->]].
  - split; [done|]. intros [= ->]. done.
Qed.

(** X5: [Equal] decides equality of paths: it is true exactly when the two
    paths have the same components in the same order. *)
Theorem Equal_iff (p q : DatasetPath) : Equal p q = true <-> p = q.
Proof.
  unfold Equal, len. destruct p as [a], q as [b]. cbn [comps].
  destruct (Z.eqb_spec (Z.of_nat (length a)) (Z.of_nat (length b))) as [Hl|Hl]; simpl.
  - rewrite comps_equal_eq. split; [by intros ->|by intros [= ->]].
  - split; [done|]. intros [= ->]. done.
Qed.

Lemma Equal_iff_witness :
  Equal (mkDatasetPath ["a"; "b"]) (mkDatasetPath ["a"; "b"]) = true
  /\ mkDatasetPath ["a"; "b"] <> mkDatasetPath ["a/b"].
Proof.
  split.
  - apply (proj2 (Equal_iff (mkDatasetPath ["a"; "b"]) (mkDatasetPath ["a"; "b"]))).
    reflexivity.
  - intros H. apply (proj2 (Equal_iff _ _)) in H. discriminate.
Defined.

(** X4: parsing is injective: two accepted strings give [Equal] paths
    exactly when they are the same string. *)
Theorem NewDatasetPath_injective (s1 s2 : string) (p q : DatasetPath) :
  NewDatasetPath s1 = (p, None) ->
  NewDatasetPath s2 = (q, None) ->
  Equal p q = true <-> s1 = s2.
Proof.
  intros H1 H2. rewrite Equal_eq. split.
  - intros ->. by rewrite <- (ToString_parse s1 q), <- (ToString_parse s2 q).
  - intros ->. congruence.
Qed.

Lemma NewDatasetPath_injective_witness :
  Equal (mkDatasetPath ["a"; ""; "b"]) (mkDatasetPath ["a"; "b"]) = true <-> "a//b" = "a/b".
Proof.
  apply (NewDatasetPath_injective "a//b" "a/b"); reflexivity.
Defined.

(** ** Snapshot and bookmark names *)

(** X13: a snapshot name and a bookmark name are never accepted as a
    dataset path: [NewDatasetPath] rejects them for the forbidden character
    they hold. *)
Theorem snapshot_name_is_no_dataset_path (fs : DatasetPath) (name : string) :
  NewDatasetPath (zfsBuildSnapName fs name) = (mkDatasetPath [], Some ErrForbiddenChars)
  /\ NewDatasetPath (zfsBuildBookmarkName fs name)
     = (mkDatasetPath [], Some ErrForbiddenChars).
Proof.
  unfold NewDatasetPath, zfsBuildSnapName, zfsBuildBookmarkName. split.
  - destruct (String.eqb_spec (ToString fs +:+ "@" +:+ name) "") as [H|_].
    { by destruct (ToString fs). }
    rewrite ContainsAny_app. change ("@" +:+ name) with (String "@" name).
    cbn [strings.ContainsAny]. by rewrite orb_true_r.
  - destruct (String.eqb_spec (ToString fs +:+ "#" +:+ name) "") as [H|_].
    { by destruct (ToString fs). }
    rewrite ContainsAny_app. change ("#" +:+ name) with (String "#" name).
    cbn [strings.ContainsAny]. by rewrite orb_true_r.
Qed.

(** X14: for a path parsed from [s], cutting the snapshot name at the
    first [@] gives [s] and the name back, and likewise the bookmark name at
    the first [#]; so the names of two parsed paths coincide only for the
    same path and the same name. *)
Theorem snapshot_name_decomposes (s name : string) (fs : DatasetPath) :
  NewDatasetPath s = (fs, None) ->
  strings.Cut (zfsBuildSnapName fs name) "@" = Some (s, name)
  /\ strings.Cut (zfsBuildBookmarkName fs name) "#" = Some (s, name)
  /\ (forall s' name' fs',
        NewDatasetPath s' = (fs', None) ->
        zfsBuildSnapName fs name = zfsBuildSnapName fs' name'
        \/ zfsBuildBookmarkName fs name = zfsBuildBookmarkName fs' name' ->
        fs = fs' /\ name = name').
Proof.
  assert (forall t n g, NewDatasetPath t = (g, None) ->
            strings.Cut (zfsBuildSnapName g n) "@" = Some (t, n)
            /\ strings.Cut (zfsBuildBookmarkName g n) "#" = Some (t, n)) as Hcut.
  { intros t n g Hg. unfold zfsBuildSnapName, zfsBuildBookmarkName.
    rewrite (ToString_parse t g Hg).
    assert (strings.ContainsAny t FORBIDDEN = false) as Hf.
    { unfold NewDatasetPath in Hg. destruct (String.eqb_spec t "") as [->|_]; [done|].
      by destruct (strings.ContainsAny t FORBIDDEN). }
    split; apply Cut_app_sep; by apply (ContainsAny_false_byte t FORBIDDEN). }
  intros Hfs. destruct (Hcut s name fs Hfs) as [Hsnap Hbook].
  split; [done|]. split; [done|].
  intros s' name' fs' Hfs' Heq. destruct (Hcut s' name' fs' Hfs') as [Hsnap' Hbook'].
  assert (s = s' /\ name = name') as [-> ->].
  { destruct Heq as [Heq|Heq].
    - rewrite Heq in Hsnap. rewrite Hsnap in Hsnap'. by injection Hsnap'.
    - rewrite Heq in Hbook. rewrite Hbook in Hbook'. by injection Hbook'. }
  split; [congruence|done].
Qed.

Lemma snapshot_name_decomposes_witness :
  strings.Cut (zfsBuildSnapName (mkDatasetPath ["tank"; "data"]) "daily@1") "@"
  = Some ("tank/data", "daily@1").
Proof.
  apply (snapshot_name_decomposes "tank/data" "daily@1" (mkDatasetPath ["tank"; "data"])).
  reflexivity.
Defined.

(** ** Prefixes *)

Lemma HasPrefix_loop_spec (pc prefc : list string) (n i : nat) :
  (i + n <= length prefc)%nat -> (i + n <= length pc)%nat ->
  HasPrefix_loop pc prefc i n
  = Some (bool_decide (take n (drop i prefc) = take n (drop i pc))).
Proof.
  revert i. induction n as [|n IH]; intros i Hpre Hp; simpl.
  { done. }
  destruct (lookup_lt_is_Some_2 prefc i) as [a Ha]; [lia|].
  destruct (lookup_lt_is_Some_2 pc i) as [b Hb]; [lia|].
  rewrite Ha, Hb, (drop_S _ _ _ Ha), (drop_S _ _ _ Hb). cbn [take].
  destruct (String.eqb_spec a b) as [->|Hne]; cbn [negb].
  - rewrite IH by lia. f_equal. apply bool_decide_ext.
    split; [by intros ->|by intros [= ->]].
  - f_equal. symmetry. apply bool_decide_eq_false. by intros [= ->].
Qed.

Lemma HasPrefix_decide (p prefix : DatasetPath) :
  HasPrefix p prefix = Some (bool_decide (comps prefix `prefix_of` comps p)).
Proof.
  unfold HasPrefix, len.
  destruct (Z.ltb_spec (Z.of_nat (length (comps p))) (Z.of_nat (length (comps prefix))))
    as [Hlt|Hge].
  - f_equal. symmetry. apply bool_decide_eq_false. intros H.
    apply prefix_length in H. lia.
  - rewrite HasPrefix_loop_spec by lia. f_equal. apply bool_decide_ext.
    rewrite !drop_0, firstn_all. split.
    + intros ->. apply prefix_take.
    + intros [k ->]. by rewrite take_app_length.
Qed.

Lemma HasPrefix_true_iff (p prefix : DatasetPath) :
  HasPrefix p prefix = Some true <-> exists rest, comps p = comps prefix ++ rest.
Proof.
  rewrite HasPrefix_decide. split.
  - intros [= H]. by apply bool_decide_eq_true in H.
  - intros H. f_equal. by apply bool_decide_eq_true.
Qed.

(** X6: [HasPrefix] never indexes out of range, and it is true exactly when
    the components of the path begin with the components of the prefix. *)
Theorem HasPrefix_iff (p prefix : DatasetPath) :
  (exists b, HasPrefix p prefix = Some b)
  /\ (HasPrefix p prefix = Some true <-> exists rest, comps p = comps prefix ++ rest).
Proof.
  split; [rewrite HasPrefix_decide; by eexists|]. apply HasPrefix_true_iff.
Qed.

Lemma HasPrefix_iff_witness :
  HasPrefix (mkDatasetPath ["tank"; "data"; "home"]) (mkDatasetPath ["tank"; "data"])
  = Some true.
Proof.
  apply (proj2 (proj2 (HasPrefix_iff (mkDatasetPath ["tank"; "data"; "home"])
                         (mkDatasetPath ["tank"; "data"])))).
  exists ["home"]. reflexivity.
Defined.

(** X7: [HasPrefix] is a partial order on paths: every path has itself as a
    prefix, a prefix of a prefix is a prefix, and two paths that are prefixes
    of each other are [Equal]. *)
Theorem HasPrefix_partial_order (p q r : DatasetPath) :
  HasPrefix p p = Some true
  /\ (HasPrefix p q = Some true -> HasPrefix q r = Some true -> HasPrefix p r = Some true)
  /\ (HasPrefix p q = Some true -> HasPrefix q p = Some true -> Equal p q = true).
Proof.
  rewrite !HasPrefix_decide. split; [|split].
  - f_equal. by apply bool_decide_eq_true.
  - intros [= Hpq] [= Hqr]. f_equal.
    apply bool_decide_eq_true in Hpq, Hqr. apply bool_decide_eq_true.
    by etrans.
  - intros [= Hpq] [= Hqp]. apply bool_decide_eq_true in Hpq, Hqp.
    apply Equal_eq. destruct p as [a], q as [b]. cbn [comps] in *. f_equal.
    destruct Hpq as [k Hk], Hqp as [k' Hk'].
    assert (k = []) as ->.
    { apply (f_equal length) in Hk, Hk'. rewrite length_app in Hk, Hk'.
      destruct k; [done|simpl in *; lia]. }
    by rewrite app_nil_r in Hk.
Qed.

Lemma HasPrefix_partial_order_witness :
  HasPrefix (mkDatasetPath ["a"; "b"; "c"]) (mkDatasetPath ["a"]) = Some true.
Proof.
  apply (proj1 (proj2 (HasPrefix_partial_order (mkDatasetPath ["a"; "b"; "c"])
                         (mkDatasetPath ["a"; "b"]) (mkDatasetPath ["a"])))); reflexivity.
Defined.

Lemma TrimPrefix_loop_spec (old : list string) (prelen n : nat) :
  forall (i : nat) (new : list string),
    length new = (i + n)%nat ->
    (prelen + i + n <= length old)%nat ->
    TrimPrefix_loop old prelen i n new
    = Some (take i new ++ take n (drop (prelen + i) old)).
Proof.
  induction n as [|n IH]; intros i new Hlen Hold; simpl.
  { rewrite take_0, app_nil_r, take_ge by lia. done. }
  destruct (lookup_lt_is_Some_2 old (prelen + i)) as [c Hc]; [lia|].
  rewrite Hc. destruct (Nat.ltb_spec i (length new)) as [_|?]; [|lia].
  rewrite IH by (rewrite ?length_insert; lia).
  f_equal. rewrite (drop_S _ _ _ Hc). cbn [take].
  replace (prelen + S i)%nat with (S (prelen + i)) by lia.
  rewrite (take_S_r _ _ c) by (apply list_lookup_insert_eq; lia).
  rewrite take_insert_ge by lia. by rewrite <- app_assoc.
Qed.

Lemma TrimPrefix_drop (p prefix : DatasetPath) :
  HasPrefix p prefix = Some true ->
  TrimPrefix p prefix = Some (mkDatasetPath (drop (length (comps prefix)) (comps p))).
Proof.
  intros H. unfold TrimPrefix. rewrite H.
  apply HasPrefix_true_iff in H as [rest Hrest].
  assert (length (comps p) = (length (comps prefix) + length rest)%nat) as Hl.
  { by rewrite Hrest, length_app. }
  unfold len. destruct (Z.ltb_spec (Z.of_nat (length (comps p))
                                    - Z.of_nat (length (comps prefix))) 0); [lia|].
  rewrite Nat2Z.id.
  replace (Z.to_nat (Z.of_nat (length (comps p)) - Z.of_nat (length (comps prefix))))
    with (length rest) by lia.
  rewrite TrimPrefix_loop_spec by (rewrite ?length_replicate; lia).
  rewrite take_0, Nat.add_0_r. cbn [app]. do 2 f_equal.
  apply take_ge. rewrite length_drop. lia.
Qed.

(** X8: [TrimPrefix] never panics.  When the argument is a prefix, what it
    leaves is the rest of the path: the prefix extended by it is the path
    again.  When the argument is not a prefix, the path is unchanged. *)
Theorem TrimPrefix_spec (p prefix : DatasetPath) :
  (HasPrefix p prefix = Some true ->
     exists t, TrimPrefix p prefix = Some t /\ Extend prefix t = p
               /\ Length t = Length p - Length prefix)
  /\ (HasPrefix p prefix = Some false -> TrimPrefix p prefix = Some p).
Proof.
  split.
  - intros H. rewrite (TrimPrefix_drop _ _ H). eexists. split; [done|].
    apply HasPrefix_true_iff in H as [rest Hrest].
    unfold Extend, Length, len. cbn [comps]. destruct p as [a]. cbn [comps] in *.
    subst a. rewrite drop_app_length. split; [done|]. rewrite length_app. lia.
  - intros H. unfold TrimPrefix. by rewrite H.
Qed.

Lemma TrimPrefix_spec_witness :
  (exists t, TrimPrefix (mkDatasetPath ["tank"; "data"; "home"]) (mkDatasetPath ["tank"])
             = Some t
             /\ Extend (mkDatasetPath ["tank"]) t = mkDatasetPath ["tank"; "data"; "home"]
             /\ Length t = Length (mkDatasetPath ["tank"; "data"; "home"])
                           - Length (mkDatasetPath ["tank"]))
  /\ TrimPrefix (mkDatasetPath ["tank"; "data"]) (mkDatasetPath ["tan"])
     = Some (mkDatasetPath ["tank"; "data"]).
Proof.
  split.
  - apply (proj1 (TrimPrefix_spec (mkDatasetPath ["tank"; "data"; "home"])
                    (mkDatasetPath ["tank"]))). reflexivity.
  - apply (proj2 (TrimPrefix_spec (mkDatasetPath ["tank"; "data"])
                    (mkDatasetPath ["tan"]))). reflexivity.
Defined.

(** X9: trimming the prefix off an extended path gives the extension back:
    [TrimPrefix (Extend q r) q] is [r]. *)
Theorem TrimPrefix_Extend (q r : DatasetPath) :
  HasPrefix (Extend q r) q = Some true /\ TrimPrefix (Extend q r) q = Some r.
Proof.
  assert (HasPrefix (Extend q r) q = Some true) as H.
  { apply HasPrefix_true_iff. by exists (comps r). }
  split; [done|]. rewrite (TrimPrefix_drop _ _ H). unfold Extend. cbn [comps].
  rewrite drop_app_length. by destruct r.
Qed.

Lemma TrimNPrefixComps_drop (p : DatasetPath) (n : Z) :
  0 <= n -> TrimNPrefixComps p n = Some (mkDatasetPath (drop (Z.to_nat n) (comps p))).
Proof.
  intros Hn. unfold TrimNPrefixComps, slice_from, len. destruct p as [a]. cbn [comps].
  destruct (Z.ltb_spec (Z.of_nat (length a)) n) as [Hlt|Hge].
  - rewrite (drop_ge a (Z.to_nat n)) by lia.
    destruct (Z.eqb_spec (Z.of_nat (length a)) 0) as [H0|H0].
    + destruct a; [done|simpl in H0; lia].
    + rewrite (proj2 (Z.leb_le 0 _)) by lia. rewrite Z.leb_refl. cbn [andb].
      rewrite Nat2Z.id. by rewrite drop_all.
  - destruct (Z.eqb_spec n 0) as [->|H0]; [done|].
    by rewrite (proj2 (Z.leb_le 0 n)), (proj2 (Z.leb_le n _)) by lia.
Qed.

(** X10: when the argument is a prefix, [TrimPrefix] by it and
    [TrimNPrefixComps] by its length give the same path. *)
Theorem TrimPrefix_is_TrimNPrefixComps (p prefix : DatasetPath) :
  HasPrefix p prefix = Some true ->
  TrimNPrefixComps p (Length prefix) = TrimPrefix p prefix.
Proof.
  intros H. rewrite (TrimPrefix_drop _ _ H).
  rewrite TrimNPrefixComps_drop by (unfold Length, len; lia).
  unfold Length, len. by rewrite Nat2Z.id.
Qed.

Lemma TrimPrefix_is_TrimNPrefixComps_witness :
  TrimNPrefixComps (mkDatasetPath ["a"; "b"; "c"]) (Length (mkDatasetPath ["a"; "b"]))
  = TrimPrefix (mkDatasetPath ["a"; "b"; "c"]) (mkDatasetPath ["a"; "b"]).
Proof.
  apply (TrimPrefix_is_TrimNPrefixComps (mkDatasetPath ["a"; "b"; "c"])
           (mkDatasetPath ["a"; "b"])). reflexivity.
Defined.

Lemma int_add_cases (bits n m : Z) :
  0 < bits -> 0 <= n <= MaxInt bits -> 0 <= m <= MaxInt bits ->
  (n + m <= MaxInt bits -> int_add bits n m = n + m)
  /\ (MaxInt bits < n + m -> MinInt bits <= int_add bits n m < 0).
Proof.
  unfold MaxInt, MinInt, int_add. intros Hbits Hn Hm.
  assert (2 ^ bits = 2 * 2 ^ (bits - 1)) as ->.
  { replace bits with (Z.succ (bits - 1)) at 1 by lia. apply Z.pow_succ_r. lia. }
  assert (0 < 2 ^ (bits - 1)) as Hh by (apply Z.pow_pos_nonneg; lia).
  set (h := 2 ^ (bits - 1)) in *. split; intros Hsum.
  - rewrite Z.mod_small by lia. lia.
  - replace (n + m + h) with (n + m - h + 1 * (2 * h)) by lia.
    rewrite Z.mod_add by lia. rewrite Z.mod_small by lia. lia.
Qed.

Lemma TrimNPrefixComps_negative (p : DatasetPath) (n : Z) :
  n < 0 -> TrimNPrefixComps p n = None.
Proof.
  intros Hn. unfold TrimNPrefixComps, slice_from, len.
  rewrite (proj2 (Z.ltb_ge _ _)) by lia.
  rewrite (proj2 (Z.eqb_neq _ _)) by lia.
  by rewrite (proj2 (Z.leb_gt _ _)) by lia.
Qed.

(** X11: for counts [n] and [m] that are not negative, trimming [n]
    components and then [m] is trimming [n + m], as long as the sum is an
    [int]: when the sum of the two counts overflows, it wraps to a negative
    number and the single call panics, while the two calls in a row return.
    A count of the length or more leaves the empty path. *)
Theorem TrimNPrefixComps_compose (bits : Z) (p q : DatasetPath) (n m : Z) :
  0 < bits ->
  0 <= n <= MaxInt bits -> 0 <= m <= MaxInt bits ->
  TrimNPrefixComps p n = Some q ->
  (n + m <= MaxInt bits ->
     int_add bits n m = n + m
     /\ TrimNPrefixComps q m = TrimNPrefixComps p (int_add bits n m))
  /\ (MaxInt bits < n + m ->
      int_add bits n m < 0
      /\ TrimNPrefixComps p (int_add bits n m) = None
      /\ exists r, TrimNPrefixComps q m = Some r)
  /\ (Length p <= n -> Empty q = true).
Proof.
  intros Hbits Hn Hm.
  destruct (int_add_cases bits n m Hbits Hn Hm) as [Hsmall Hwrap].
  rewrite (TrimNPrefixComps_drop p n) by lia. intros [= <-].
  split; [|split].
  - intros Hsum. rewrite (Hsmall Hsum). split; [done|].
    rewrite !TrimNPrefixComps_drop by lia. cbn [comps].
    rewrite drop_drop. do 3 f_equal. lia.
  - intros Hsum. destruct (Hwrap Hsum) as [_ Hneg]. split; [done|].
    split; [by apply TrimNPrefixComps_negative|].
    rewrite TrimNPrefixComps_drop by lia. by eexists.
  - unfold Length, Empty, len. intros Hl. cbn [comps]. rewrite drop_ge by lia. done.
Qed.

Lemma TrimNPrefixComps_compose_witness :
  (2 + 1 <= MaxInt 64 ->
     int_add 64 2 1 = 2 + 1
     /\ TrimNPrefixComps (mkDatasetPath ["c"; "d"]) 1
        = TrimNPrefixComps (mkDatasetPath ["a"; "b"; "c"; "d"]) (int_add 64 2 1))
  /\ (MaxInt 64 < 2 + 1 ->
      int_add 64 2 1 < 0
      /\ TrimNPrefixComps (mkDatasetPath ["a"; "b"; "c"; "d"]) (int_add 64 2 1) = None
      /\ exists r, TrimNPrefixComps (mkDatasetPath ["c"; "d"]) 1 = Some r)
  /\ (Length (mkDatasetPath ["a"; "b"; "c"; "d"]) <= 2
      -> Empty (mkDatasetPath ["c"; "d"]) = true).
Proof.
  apply (TrimNPrefixComps_compose 64 (mkDatasetPath ["a"; "b"; "c"; "d"])
           (mkDatasetPath ["c"; "d"]) 2 1).
  - lia.
  - unfold MaxInt. simpl. lia.
  - unfold MaxInt. simpl. lia.
  - reflexivity.
Defined.

Example TrimNPrefixComps_overflow :
  int_add 64 (MaxInt 64) 1 = MinInt 64
  /\ TrimNPrefixComps (mkDatasetPath ["a"; "b"]) (int_add 64 (MaxInt 64) 1) = None.
Proof. split; reflexivity. Qed.

(** X12: [Extend] adds the lengths; its string form is the two string forms
    joined by [/], and the string form of the other path when one of the two
    is empty. *)
Theorem Extend_ToString (p q : DatasetPath) :
  Length (Extend p q) = Length p + Length q
  /\ (Empty p = true -> ToString (Extend p q) = ToString q)
  /\ (Empty q = true -> ToString (Extend p q) = ToString p)
  /\ (Empty p = false -> Empty q = false ->
      ToString (Extend p q) = ToString p +:+ "/" +:+ ToString q).
Proof.
  unfold Length, Empty, Extend, ToString, len. destruct p as [a], q as [b]. cbn [comps].
  split; [rewrite length_app; lia|]. split; [|split].
  - intros H. by destruct a.
  - intros H. destruct b; [|done]. by rewrite app_nil_r.
  - intros Ha Hb. apply Join_app; [by destruct a|by destruct b].
Qed.

Lemma Extend_ToString_witness :
  ToString (Extend (mkDatasetPath ["tank"]) (mkDatasetPath ["data"; "home"]))
  = ToString (mkDatasetPath ["tank"]) +:+ "/" +:+ ToString (mkDatasetPath ["data"; "home"]).
Proof.
  apply (proj2 (proj2 (proj2 (Extend_ToString (mkDatasetPath ["tank"])
                                (mkDatasetPath ["data"; "home"]))))); reflexivity.
Defined.

(** ** The synchronous operations *)

(** X15: [ZFSDestroy], [ZFSSnapshot], [ZFSBookmark] and [ZFSRecv] each run
    one command: [destroy name], [snapshot path@name], [bookmark path@snap
    path#bookmark], [recv args... path].  A failure to start is returned as
    it is and the process is not awaited; a failure of the wait is wrapped
    into a [ZFSError] with the standard error output; the result is nil
    exactly when the process started and exited with status 0.  The
    [recursive] flag of [ZFSSnapshot] changes nothing. *)
Theorem synchronous_operations (w : World) (fs : DatasetPath)
    (name snapshot bookmark : string) (recursive : bool) (additionalArgs : list string) :
  ZFSDestroy w name = run_and_wait w ["destroy"; name]
  /\ ZFSSnapshot w fs name recursive
     = run_and_wait w ["snapshot"; ToString fs +:+ "@" +:+ name]
  /\ ZFSBookmark w fs snapshot bookmark
     = run_and_wait w ["bookmark"; ToString fs +:+ "@" +:+ snapshot;
                       ToString fs +:+ "#" +:+ bookmark]
  /\ ZFSRecv w fs additionalArgs
     = run_and_wait w (["recv"] ++ additionalArgs ++ [ToString fs])
  /\ (forall args,
        (result (run_and_wait w args) = None
         <-> start_err (run w (mkCmd (ZFS_BINARY w) args)) = None
             /\ wait_err (run w (mkCmd (ZFS_BINARY w) args)) = None)
        /\ (EvWait (mkCmd (ZFS_BINARY w) args) ∈ trace (run_and_wait w args)
            <-> start_err (run w (mkCmd (ZFS_BINARY w) args)) = None)).
Proof.
  assert (forall args,
            (cmd ← Command (ZFS_BINARY w) args;
             err ← Start w cmd;
             match err with
             | Some e => mret (Some e)
             | None =>
                 err ← Wait w cmd;
                 match err with
                 | Some e => mret (Some (ZFSError (stderr (run w cmd)) e))
                 | None => mret None
                 end
             end) = run_and_wait w args) as Hrun.
  { intros args. unfold run_and_wait, Command, Start, Wait. io_unfold.
    destruct (start_err _); [done|]. by destruct (wait_err _). }
  split; [apply Hrun|]. split; [apply Hrun|]. split; [apply Hrun|].
  split.
  { unfold ZFSRecv, recv_args. cbn [len length Z.of_nat Z.ltb Z.compare]. apply Hrun. }
  intros args. unfold run_and_wait, result, trace.
  destruct (start_err _) as [e|]; cbn [fst snd].
  - split; [split; [done|by intros [? _]]|]. split; [|done].
    intros H. apply elem_of_cons in H as [H|H]; [done|].
    apply elem_of_cons in H as [H|H]; [done|]. by apply elem_of_nil in H.
  - split.
    + destruct (wait_err _); split; try done. by intros [_ ?].
    + split; [done|]. intros _. do 2 apply list_elem_of_further. apply list_elem_of_here.
Qed.

Lemma synchronous_operations_witness :
  result (run_and_wait (world_of "" "") ["destroy"; "tank/data@old"]) = None.
Proof.
  destruct (synchronous_operations (world_of "" "") (mkDatasetPath []) "" "" "" false [])
    as (_ & _ & _ & _ & H).
  apply (proj2 (proj1 (H ["destroy"; "tank/data@old"]))). split; reflexivity.
Defined.

(** X16: for a property set without [=] in its keys, [ZFSSet] runs the one
    command [set token... path]: after [set] one token [name=value] per
    entry, the string [name ++ "=" ++ value], in the order the map is
    visited, and the path last; its error is that of running this
    command. *)
Theorem ZFSSet_command (w : World) (fs : DatasetPath) (props : ZFSProperties) :
  range_visits_each_entry_once w ->
  (forall k v, m props !! k = Some v -> strings.Contains k "=" = false) ->
  exists tokens,
    tokens ≡ₚ map (fun entry => fst entry +:+ "=" +:+ snd entry) (map_to_list (m props))
    /\ (forall k v,
          m props !! k = Some v
          <-> exists t, t ∈ tokens /\ strings.Cut t "=" = Some (k, v))
    /\ ZFSSet w fs props = run_and_wait w (["set"] ++ tokens ++ [ToString fs]).
Proof.
  intros Hrange Hfree. pose proof (Hrange (m props)) as Hperm.
  exists (map prop_token (map_range w (m props))).
  assert (forall k v, (k, v) ∈ map_range w (m props) <-> m props !! k = Some v) as Hin.
  { intros k v. rewrite Hperm. apply elem_of_map_to_list. }
  split; [by rewrite Hperm|]. split.
  - intros k v. split.
    + intros Hkv. exists (prop_token (k, v)). split.
      * apply list_elem_of_In, in_map, list_elem_of_In. by apply Hin.
      * apply prop_token_format. by eapply Hfree.
    + intros (t & Ht & Hcut).
      apply list_elem_of_In, in_map_iff in Ht as ([k' v'] & <- & Hkv').
      apply list_elem_of_In, Hin in Hkv'.
      destruct (prop_token_format k' v' (Hfree k' v' Hkv')) as [_ Hcut'].
      rewrite Hcut' in Hcut. by injection Hcut as <- <-.
  - unfold ZFSSet, appendArgs. rewrite appendArgs_range_ok.
    + unfold run_and_wait, Command, Start, Wait. io_unfold. rewrite <- app_assoc.
      destruct (start_err _); [done|]. by destruct (wait_err _).
    + apply Forall_forall. intros [k v] Hkv. apply Hin in Hkv. simpl. by eapply Hfree.
Qed.

Lemma ZFSSet_command_witness :
  exists tokens,
    tokens ≡ₚ map (fun entry => fst entry +:+ "=" +:+ snd entry)
                  (map_to_list (m (Set_ NewZFSProperties "compression" "lz4")))
    /\ (forall k v,
          m (Set_ NewZFSProperties "compression" "lz4") !! k = Some v
          <-> exists t, t ∈ tokens /\ strings.Cut t "=" = Some (k, v))
    /\ ZFSSet (world_of "" "") (mkDatasetPath ["tank"]) (Set_ NewZFSProperties "compression" "lz4")
       = run_and_wait (world_of "" "") (["set"] ++ tokens ++ [ToString (mkDatasetPath ["tank"])]).
Proof.
  apply (ZFSSet_command (world_of "" "") (mkDatasetPath ["tank"])
           (Set_ NewZFSProperties "compression" "lz4")).
  - intros ?. reflexivity.
  - intros k v Hkv. simpl in Hkv. apply lookup_insert_Some in Hkv as [[<- _]|[_ Hkv]].
    + reflexivity.
    + by rewrite lookup_empty in Hkv.
Defined.

(** X17: the token of an entry whose key holds no [=] gives the entry back
    when it is cut at its first [=]; two such entries with the same token
    are the same entry. *)
Theorem prop_token_roundtrip (k v : string) :
  strings.Contains k "=" = false ->
  strings.Cut (prop_token (k, v)) "=" = Some (k, v)
  /\ (forall k' v', strings.Contains k' "=" = false ->
        prop_token (k, v) = prop_token (k', v') -> k = k' /\ v = v').
Proof.
  assert (forall a b, strings.Contains a "=" = false ->
            strings.Cut (prop_token (a, b)) "=" = Some (a, b)) as Hcut.
  { intros a b Ha. unfold prop_token. cbn [fst snd].
    apply Cut_app_sep. by rewrite <- Contains_byte. }
  intros Hk. split; [by apply Hcut|].
  intros k' v' Hk' Heq. pose proof (Hcut k v Hk) as H1. pose proof (Hcut k' v' Hk') as H2.
  rewrite Heq in H1. rewrite H1 in H2. by injection H2.
Qed.

Lemma prop_token_roundtrip_witness :
  strings.Cut (prop_token ("compression", "a=b")) "=" = Some ("compression", "a=b").
Proof. apply (prop_token_roundtrip "compression" "a=b"). reflexivity. Defined.

(** ** ZFSGet *)

Section ZFSGetFacts.

Variable Fields : string -> list string.
Variable combined : Cmd -> string.

Lemma ZFSGet_loop_bad (lines : list string) (res : gmap string string) :
  Exists (fun line => ~ pair_line Fields line) lines ->
  ZFSGet_loop Fields lines res = (None, Some ErrGetPairs).
Proof.
  revert res. induction lines as [|line rest IH]; intros res Hex; simpl.
  { by apply Exists_nil in Hex. }
  destruct (Fields line) as [|a [|b [|c t]]] eqn:Hf; try done.
  apply Exists_cons in Hex as [Hbad|Hex]; [|by apply IH].
  exfalso. apply Hbad. by exists a, b.
Qed.

Lemma ZFSGet_loop_ok (lines : list string) (res : gmap string string) (ps : ZFSProperties) :
  ZFSGet_loop Fields lines res = (Some ps, None) ->
  Forall (pair_line Fields) lines
  /\ (forall k v, m ps !! k = Some v ->
        res !! k = Some v \/ exists line, line ∈ lines /\ Fields line = [k; v])
  /\ (forall k, is_Some (res !! k) \/ (exists line v, line ∈ lines /\ Fields line = [k; v]) ->
        is_Some (m ps !! k)).
Proof.
  revert res. induction lines as [|line rest IH]; intros res; simpl.
  { intros [= <-]. cbn [m]. split; [constructor|]. split; [by left|].
    intros k [H|(line & v & Hin & _)]; [done|]. by apply elem_of_nil in Hin. }
  destruct (Fields line) as [|a [|b [|c t]]] eqn:Hf; try done.
  intros Hloop. destruct (IH _ Hloop) as (Hall & Hfrom & Hto).
  split; [constructor; [by exists a, b|done]|]. split.
  - intros k v Hkv. destruct (Hfrom k v Hkv) as [Hins|(l & Hin & Hl)].
    + apply lookup_insert_Some in Hins as [[<- <-]|[_ Hres]]; [|by left].
      right. exists line. split; [apply list_elem_of_here|done].
    + right. exists l. split; [by apply list_elem_of_further|done].
  - intros k Hk. apply Hto. destruct Hk as [Hres|(l & v & Hin & Hl)].
    + left. destruct (decide (a = k)) as [->|Hne].
      * rewrite lookup_insert_eq. by eexists.
      * by rewrite lookup_insert_ne.
    + apply elem_of_cons in Hin as [->|Hin].
      * left. rewrite Hf in Hl. injection Hl as -> ->. rewrite lookup_insert_eq. by eexists.
      * right. by exists l, v.
Qed.

Lemma ZFSGet_loop_total (lines : list string) (res : gmap string string) :
  Forall (pair_line Fields) lines -> exists ps, ZFSGet_loop Fields lines res = (Some ps, None).
Proof.
  revert res. induction lines as [|line rest IH]; intros res Hall; simpl.
  { by eexists. }
  apply Forall_cons in Hall as [(k & v & Hkv) Hrest]. rewrite Hkv. by apply IH.
Qed.

Lemma ZFSGet_started (w : World) (fs : DatasetPath) (props : list string) :
  let cmd := mkCmd (ZFS_BINARY w) (get_args fs props) in
  start_err (run w cmd) = None ->
  wait_err (run w cmd) = None ->
  result (ZFSGet Fields combined w fs props)
  = if negb (len (strings.Split (combined cmd) strings.newline) =? len props)
    then (None, Some ErrGetCount)
    else ZFSGet_loop Fields (strings.Split (combined cmd) strings.newline) ∅.
Proof.
  intros cmd Hstart Hwait. unfold ZFSGet, CombinedOutput, Command, Start, Wait.
  io_unfold. fold cmd. rewrite Hstart, Hwait. cbn [snd result].
  by destruct (negb _).
Qed.

Lemma ZFSGet_not_run (w : World) (fs : DatasetPath) (props : list string) :
  let cmd := mkCmd (ZFS_BINARY w) (get_args fs props) in
  start_err (run w cmd) <> None \/ wait_err (run w cmd) <> None ->
  fst (result (ZFSGet Fields combined w fs props)) = None
  /\ snd (result (ZFSGet Fields combined w fs props)) <> None.
Proof.
  intros cmd H. unfold ZFSGet, CombinedOutput, Command, Start, Wait.
  io_unfold. fold cmd.
  destruct (start_err (run w cmd)) as [e|]; [done|].
  destruct (wait_err (run w cmd)) as [e|]; [done|]. by destruct H.
Qed.

(** X18: [ZFSGet] fails whenever the output it reads is empty or ends with
    a newline, whatever the properties asked for: the text after the last
    newline counts as a line, and it has no fields.  The error is the one for
    the number of values or the one for the pairs. *)
Theorem ZFSGet_fails_on_terminated_output (w : World) (fs : DatasetPath)
    (props : list string) :
  Fields "" = [] ->
  let cmd := mkCmd (ZFS_BINARY w) (get_args fs props) in
  combined cmd = "" \/ (exists o, combined cmd = o +:+ String strings.newline "") ->
  fst (result (ZFSGet Fields combined w fs props)) = None
  /\ snd (result (ZFSGet Fields combined w fs props)) <> None
  /\ (start_err (run w cmd) = None -> wait_err (run w cmd) = None ->
      snd (result (ZFSGet Fields combined w fs props)) = Some ErrGetCount
      \/ snd (result (ZFSGet Fields combined w fs props)) = Some ErrGetPairs).
Proof.
  intros Hempty cmd Hout.
  assert ("" ∈ strings.Split (combined cmd) strings.newline) as Hin.
  { destruct Hout as [->|[o ->]]; [apply list_elem_of_here|].
    pose proof (Split_trailing_sep o strings.newline "x") as Hl.
    destruct (exists_last (Split_not_nil (o +:+ String strings.newline "") strings.newline))
      as (init & l & Heq).
    rewrite Heq in Hl |- *. rewrite last_last in Hl. subst l.
    apply elem_of_app. right. apply list_elem_of_here. }
  assert (forall res, ZFSGet_loop Fields (strings.Split (combined cmd) strings.newline) res
                      = (None, Some ErrGetPairs)) as Hloop.
  { intros res. apply ZFSGet_loop_bad. apply Exists_exists. exists "". split; [done|].
    intros (k & v & Hkv). by rewrite Hempty in Hkv. }
  destruct (start_err (run w cmd)) as [e|] eqn:Hstart.
  { destruct (ZFSGet_not_run w fs props) as [H1 H2]; [left; fold cmd; by rewrite Hstart|].
    done. }
  destruct (wait_err (run w cmd)) as [e|] eqn:Hwait.
  { destruct (ZFSGet_not_run w fs props) as [H1 H2]; [right; fold cmd; by rewrite Hwait|].
    done. }
  rewrite (ZFSGet_started w fs props Hstart Hwait). fold cmd.
  destruct (negb _); [by auto|]. rewrite Hloop. by auto.
Qed.

(** X19: [ZFSGet] succeeds exactly when the process starts and exits with
    status 0, the output splits at the newlines into as many lines as there
    are properties asked for, and every line has exactly two fields.  The
    set returned then holds, for every line, a value for its first field,
    and every entry of the set is the pair of fields of some line; the names
    asked for are not compared with the names returned. *)
Theorem ZFSGet_success (w : World) (fs : DatasetPath) (props : list string) :
  let cmd := mkCmd (ZFS_BINARY w) (get_args fs props) in
  let lines := strings.Split (combined cmd) strings.newline in
  ((exists ps, result (ZFSGet Fields combined w fs props) = (Some ps, None))
   <-> start_err (run w cmd) = None /\ wait_err (run w cmd) = None
       /\ length lines = length props /\ Forall (pair_line Fields) lines)
  /\ (forall ps, result (ZFSGet Fields combined w fs props) = (Some ps, None) ->
        (forall k v, m ps !! k = Some v -> exists line, line ∈ lines /\ Fields line = [k; v])
        /\ (forall line k v, line ∈ lines -> Fields line = [k; v] -> is_Some (m ps !! k))).
Proof.
  intros cmd lines.
  assert (forall ps, result (ZFSGet Fields combined w fs props) = (Some ps, None) ->
            start_err (run w cmd) = None /\ wait_err (run w cmd) = None
            /\ length lines = length props
            /\ ZFSGet_loop Fields lines ∅ = (Some ps, None)) as Hinv.
  { intros ps Hps.
    destruct (start_err (run w cmd)) as [e|] eqn:Hstart.
    { destruct (ZFSGet_not_run w fs props) as [H1 H2]; [left; fold cmd; by rewrite Hstart|].
      by rewrite Hps in H1. }
    destruct (wait_err (run w cmd)) as [e|] eqn:Hwait.
    { destruct (ZFSGet_not_run w fs props) as [H1 H2]; [right; fold cmd; by rewrite Hwait|].
      by rewrite Hps in H1. }
    rewrite (ZFSGet_started w fs props Hstart Hwait) in Hps. fold cmd lines in Hps.
    unfold len in Hps.
    destruct (Z.eqb_spec (Z.of_nat (length lines)) (Z.of_nat (length props))) as [Hl|Hl];
      [|done]. cbn [negb] in Hps. repeat split; [lia|done]. }
  split; [split|].
  - intros [ps Hps]. destruct (Hinv ps Hps) as (? & ? & ? & Hloop).
    repeat split; try done. by apply (ZFSGet_loop_ok _ _ _ Hloop).
  - intros (Hstart & Hwait & Hlen & Hall).
    rewrite (ZFSGet_started w fs props Hstart Hwait). fold cmd lines.
    unfold len. rewrite Hlen, Z.eqb_refl. cbn [negb]. by apply ZFSGet_loop_total.
  - intros ps Hps. destruct (Hinv ps Hps) as (_ & _ & _ & Hloop).
    destruct (ZFSGet_loop_ok _ _ _ Hloop) as (_ & Hfrom & Hto). split.
    + intros k v Hkv. destruct (Hfrom k v Hkv) as [H|H]; [|done].
      by rewrite lookup_empty in H.
    + intros line k v Hin Hl. apply Hto. right. by exists line, v.
Qed.

End ZFSGetFacts.

Example Fields_ascii_ex1 :
  Fields_ascii ("compression" +:+ String strings.tab "lz4") = ["compression"; "lz4"].
Proof. reflexivity. Qed.

Example Fields_ascii_ex2 : Fields_ascii "  a  b " = ["a"; "b"].
Proof. reflexivity. Qed.

Lemma ZFSGet_fails_on_terminated_output_witness :
  fst (result (ZFSGet Fields_ascii
                 (fun _ => "compression" +:+ String strings.tab
                             ("lz4" +:+ String strings.newline ""))
                 (world_of "" "") (mkDatasetPath ["tank"]) ["compression"])) = None.
Proof.
  apply (ZFSGet_fails_on_terminated_output Fields_ascii
           (fun _ => "compression" +:+ String strings.tab
                       ("lz4" +:+ String strings.newline ""))
           (world_of "" "") (mkDatasetPath ["tank"]) ["compression"]).
  - reflexivity.
  - right. exists ("compression" +:+ String strings.tab "lz4"). reflexivity.
Defined.

Lemma ZFSGet_success_witness :
  exists ps,
    result (ZFSGet Fields_ascii (fun _ => "compression" +:+ String strings.tab "lz4")
              (world_of "" "") (mkDatasetPath ["tank"]) ["compression"]) = (Some ps, None).
Proof.
  apply (proj2 (proj1 (ZFSGet_success Fields_ascii
                         (fun _ => "compression" +:+ String strings.tab "lz4")
                         (world_of "" "") (mkDatasetPath ["tank"]) ["compression"]))).
  split; [reflexivity|]. split; [reflexivity|]. split; [reflexivity|].
  apply Forall_cons. split; [|apply Forall_nil; exact I].
  exists "compression", "lz4". reflexivity.
Defined.

(** ** The two listers *)

Lemma ZFSList_loop_inv properties lines res out :
  ZFSList_loop properties lines res = (out, None) ->
  Forall (well_formed properties) lines /\ out = res ++ map (fields_of properties) lines.
Proof.
  revert res. induction lines as [|text rest IH]; intros res; simpl.
  { intros [= <-]. split; [constructor|]. by rewrite app_nil_r. }
  destruct (Z.eqb_spec (len (strings.SplitN text strings.tab (len properties)))
              (len properties)) as [Hok|Hbad]; [|done].
  cbn [negb]. intros Hloop. destruct (IH _ Hloop) as [Hall ->].
  split; [by constructor|]. by rewrite <- app_assoc.
Qed.

(** X21: when [ZFSList] returns without error for at least one property,
    every row has as many fields as there are properties, and joining the
    fields of each row by tabs gives the lines that the scanner delivered,
    in their order. *)
Theorem ZFSList_rows (w : World) (properties zfsArgs : list string)
    (rows : list (list string)) :
  properties <> [] ->
  result (ZFSList w properties zfsArgs) = (rows, None) ->
  let cmd := mkCmd (ZFS_BINARY w) (list_args properties zfsArgs) in
  Forall (fun row => length row = length properties) rows
  /\ map (fun row => strings.Join row (String strings.tab ""))
       rows = fst (Scanner (stdout (run w cmd)) 1024).
Proof.
  intros Hprops Hres cmd.
  destruct (pipe_err (run w cmd)) as [e|] eqn:Hpipe.
  { unfold ZFSList, Command in Hres. io_unfold. fold cmd in Hres. by rewrite Hpipe in Hres. }
  destruct (start_err (run w cmd)) as [e|] eqn:Hstart.
  { rewrite (ZFSList_start_failure w properties zfsArgs e) in Hres by done. done. }
  rewrite ZFSList_started in Hres by done. fold cmd in Hres.
  destruct (ZFSList_loop properties _ []) as [res [e|]] eqn:Hloop; [done|].
  cbn [result snd] in Hres. destruct (wait_err (run w cmd)); [done|].
  injection Hres as <-. apply ZFSList_loop_inv in Hloop as [Hall ->]. cbn [app].
  induction Hall as [|line lines Hline Hall IH]; [by split|].
  destruct IH as [IH1 IH2]. cbn [map]. split.
  - constructor; [|done]. unfold well_formed, fields_of, len in *. lia.
  - f_equal; [|done]. apply Join_SplitN. unfold len. destruct properties; [done|].
    simpl. lia.
Qed.

Lemma ZFSList_rows_witness :
  map (fun row => strings.Join row (String strings.tab "")) [["tank"; "-"]]
  = fst (Scanner (stdout (run (world_of ("tank" +:+ String strings.tab "-") "")
                            (mkCmd "zfs" (list_args ["name"; "receive_resume_token"] []))))
           1024).
Proof.
  apply (ZFSList_rows (world_of ("tank" +:+ String strings.tab "-") "")
           ["name"; "receive_resume_token"] [] [["tank"; "-"]]).
  - discriminate.
  - reflexivity.
Defined.

Lemma rows_of_cons_ok fields ch :
  rows_of (mkZFSListResult fields None :: ch) = fields :: rows_of ch.
Proof. reflexivity. Qed.

Lemma errors_of_cons_ok fields ch :
  errors_of (mkZFSListResult fields None :: ch) = errors_of ch.
Proof. reflexivity. Qed.

(** What the loop of [ZFSListChan] sends: the rows of the well-formed lines
    up to the first malformed one, then at most one error. *)
Lemma ZFSListChan_loop_shape properties lines scanErr :
  exists rows tail,
    ZFSListChan_loop properties lines scanErr
    = map (fun fields => mkZFSListResult fields None) rows ++ tail
    /\ Forall (fun row => len row = len properties) rows
    /\ (tail = [] \/ exists e, tail = [mkZFSListResult [] (Some e)])
    /\ (ZFSList_loop properties lines [] = (rows, head (errors_of tail))
        \/ (ZFSList_loop properties lines [] = (rows, None)
            /\ scanErr = head (errors_of tail) /\ scanErr <> None)).
Proof.
  assert (forall res,
    exists rows tail,
      ZFSListChan_loop properties lines scanErr
      = map (fun fields => mkZFSListResult fields None) rows ++ tail
      /\ Forall (fun row => len row = len properties) rows
      /\ (tail = [] \/ exists e, tail = [mkZFSListResult [] (Some e)])
      /\ (ZFSList_loop properties lines res = (res ++ rows, head (errors_of tail))
          \/ (ZFSList_loop properties lines res = (res ++ rows, None)
              /\ scanErr = head (errors_of tail) /\ scanErr <> None))) as H.
  { induction lines as [|text rest IH]; intros res; simpl.
    - destruct scanErr as [e|].
      + exists [], [mkZFSListResult [] (Some e)]. rewrite ?app_nil_r.
        split; [done|]. split; [constructor|]. split; [right; by eexists|].
        right. by split.
      + exists [], []. rewrite ?app_nil_r.
        split; [done|]. split; [constructor|]. split; by left.
    - destruct (Z.eqb_spec (len (strings.SplitN text strings.tab (len properties)))
                  (len properties)) as [Hok|Hbad]; cbn [negb].
      + destruct (IH (res ++ [strings.SplitN text strings.tab (len properties)]))
          as (rows & tail & Hch & Hrows & Htail & Hloop).
        exists (strings.SplitN text strings.tab (len properties) :: rows), tail.
        rewrite Hch. rewrite <- !app_assoc in Hloop. cbn [app] in Hloop.
        split; [done|]. split; [by constructor|]. by split.
      + exists [], [mkZFSListResult [] (Some ErrUnexpectedOutput)]. rewrite ?app_nil_r.
        split; [done|]. split; [constructor|]. split; [right; by eexists|by left]. }
  destruct (H []) as (rows & tail & ? & ? & ? & ?). by exists rows, tail.
Qed.


Lemma errors_of_app rows tail :
  errors_of (map (fun fields => mkZFSListResult fields None) rows ++ tail)
  = errors_of tail.
Proof. induction rows as [|row rows IH]; [done|]. simpl. by rewrite <- IH. Qed.

Lemma ZFSListChan_shape (w : World) (properties zfsArgs : list string) :
  exists rows tail,
    result (ZFSListChan w properties zfsArgs)
    = map (fun fields => mkZFSListResult fields None) rows ++ tail
    /\ Forall (fun row => length row = length properties) rows
    /\ (tail = [] \/ exists e, tail = [mkZFSListResult [] (Some e)]).
Proof.
  unfold ZFSListChan, CommandContext, Start. io_unfold.
  destruct (create_err _) as [e|].
  { exists [], [mkZFSListResult [] (Some e)]. split; [done|]. split; [constructor|].
    right. by eexists. }
  destruct (start_err _) as [e|].
  { exists [], [mkZFSListResult [] (Some e)]. split; [done|]. split; [constructor|].
    right. by eexists. }
  destruct (Scanner _ 1024) as [lines scanErr]. cbn [result snd].
  destruct (ZFSListChan_loop_shape properties lines scanErr)
    as (rows & tail & Hch & Hrows & Htail & _).
  exists rows, tail. split; [done|]. split; [|done].
  eapply Forall_impl; [exact Hrows|]. unfold len. intros row Hrow. lia.
Qed.

(** X20: what [ZFSListChan] sends before it closes the channel, for a
    context that is not cancelled: rows without error, each with as many
    fields as there are properties, and then at most one result that carries
    an error and no fields. *)
Theorem ZFSListChan_protocol (w : World) (properties zfsArgs : list string) :
  exists rows tail,
    result (ZFSListChan w properties zfsArgs)
    = map (fun fields => mkZFSListResult fields None) rows ++ tail
    /\ Forall (fun row => length row = length properties) rows
    /\ (tail = [] \/ exists e, tail = [mkZFSListResult [] (Some e)]).
Proof.
  unfold ZFSListChan, CommandContext, Start. io_unfold.
  destruct (create_err _) as [e|].
  { exists [], [mkZFSListResult [] (Some e)]. split; [done|]. split; [constructor|].
    right. by eexists. }
  destruct (start_err _) as [e|].
  { exists [], [mkZFSListResult [] (Some e)]. split; [done|]. split; [constructor|].
    right. by eexists. }
  destruct (Scanner _ 1024) as [lines scanErr]. cbn [result snd].
  destruct (ZFSListChan_loop_shape properties lines scanErr)
    as (rows & tail & Hch & Hrows & Htail & _).
  exists rows, tail. split; [done|]. split; [|done].
  eapply Forall_impl; [exact Hrows|]. unfold len. intros row Hrow. lia.
Qed.



(** ** The endpoint *)

Lemma ListFilesystems_loop_shape (rows : list (list string)) (tail : list ZFSListResult)
    (fss : list Filesystem) :
  Forall (fun row => length row = 2%nat) rows ->
  tail = [] \/ (exists e, tail = [mkZFSListResult [] (Some e)]) ->
  exists out,
    ListFilesystems_loop (map (fun fields => mkZFSListResult fields None) rows ++ tail) fss
    = Some (out, head (errors_of tail))
    /\ (tail = [] -> exists new, out = fss ++ new
                                 /\ map (fun fs => [Path fs; ResumeToken fs]) new = rows)
    /\ (tail <> [] -> out = []).
Proof.
  intros Hrows Htail. revert fss.
  induction Hrows as [|row rows Hrow Hrows IH]; intros fss.
  - destruct Htail as [->|[e ->]]; simpl.
    + exists fss. split; [done|]. split; [|done]. intros _. exists []. by rewrite app_nil_r.
    + exists []. split; [done|]. by split.
  - destruct row as [|a [|b [|c t]]]; try done. simpl.
    destruct (IH (fss ++ [{| Path := a; ResumeToken := b |}])) as (out & Hloop & Hok & Herr).
    exists out. split; [done|]. split; [|done].
    intros Ht. destruct (Hok Ht) as (new & -> & Hnew).
    exists ({| Path := a; ResumeToken := b |} :: new). rewrite <- app_assoc.
    split; [done|]. simpl. by rewrite Hnew.
Qed.

(** X23: [ListFilesystems] never returns a list of filesystems.  It returns
    without a panic only when the inverted filter is not obtained, with the
    error of the policy and without any event.  Otherwise the channel is
    closed twice: when the lister sent no error, the deferred close panics
    in [ListFilesystems]; when the lister sent an error, either the deferred
    close panics, or [ListFilesystems] returns this error with no filesystem
    and the goroutine of [ZFSListChan] panics.  No row is ever indexed out
    of range. *)
Theorem ListFilesystems_never_returns_rows {FilesystemVersionFilter : Type}
    (w : World) (p : Puller FilesystemVersionFilter) (caller_closes_first : bool) :
  let ch := result (ZFSListChan w ["name"; "receive_resume_token"] []) in
  let out := result (ListFilesystems w p caller_closes_first) in
  (forall e, snd (InvertedFilter (Mapping p)) = Some e ->
     ListFilesystems w p caller_closes_first = ([], Returns ([], Some e)))
  /\ (snd (InvertedFilter (Mapping p)) = None ->
      (errors_of ch = [] -> out = Panics CloseOfClosedChannel)
      /\ (forall e, head (errors_of ch) = Some e ->
            out = if caller_closes_first
                  then ReturnsListerPanics ([], Some e) CloseOfClosedChannel
                  else Panics CloseOfClosedChannel)
      /\ out <> Panics IndexOutOfRange
      /\ (forall a, out <> Returns a)).
Proof.
  intros ch out. subst out. unfold ListFilesystems.
  destruct (InvertedFilter (Mapping p)) as [f [e|]]; cbn [snd].
  { split; [by intros ? [= <-]|done]. }
  split; [done|]. intros _.
  destruct (ZFSListChan_shape w ["name"; "receive_resume_token"] [])
    as (rows & tail & Hch & Hrows & Htail).
  fold ch in Hch. io_unfold.
  destruct (ZFSListChan w ["name"; "receive_resume_token"] []) as [tr chan].
  cbn [result snd] in *. subst ch. rewrite Hch.
  destruct (ListFilesystems_loop_shape rows tail [] Hrows Htail) as (fss & Hloop & Hok & Herr).
  rewrite Hloop, errors_of_app.
  destruct Htail as [->|[e ->]]; cbn.
  - split; [done|]. split; [done|]. split; [done|]. done.
  - rewrite (Herr ltac:(done)). split; [done|]. split.
    + intros e' [= <-]. by destruct caller_closes_first.
    + split; [by destruct caller_closes_first|]. intros a. by destruct caller_closes_first.
Qed.

Lemma ListFilesystems_never_returns_rows_witness :
  result (ListFilesystems (world_of ("tank" +:+ String strings.tab "abc") "")
            (puller_of true) true) = Panics CloseOfClosedChannel
  /\ result (ListFilesystems (world_of "broken" "") (puller_of true) true)
     = ReturnsListerPanics ([], Some ErrUnexpectedOutput) CloseOfClosedChannel.
Proof.
  split.
  - apply (proj1 (proj2 (ListFilesystems_never_returns_rows
                           (world_of ("tank" +:+ String strings.tab "abc") "")
                           (puller_of true) true) eq_refl)).
    reflexivity.
  - apply (proj1 (proj2 (proj2 (ListFilesystems_never_returns_rows
                           (world_of "broken" "") (puller_of true) true) eq_refl))
             ErrUnexpectedOutput).
    reflexivity.
Defined.

Section EndpointFacts.

Context {FilesystemVersion FilesystemVersionFilter : Type}.
Variable filesystem_versions :
  DatasetPath -> FilesystemVersionFilter -> list FilesystemVersion * option error.
Variable w : World.
Variable p : Puller FilesystemVersionFilter.

(** X24: when [Receive] returns without error, the requested filesystem is
    an accepted path, the inverted filter passes it, and the request has no
    resume token or the token that the local filesystem has.  The events are
    then the reading of the local token, for a request with a token only,
    and the creation and the start of the command [recv] with the requested
    filesystem as its only other argument; the writer returned is the
    standard input of this command. *)
Theorem Receive_success_sound (r : ReceiveRequest) (writer : option WriteCloser) :
  result (Receive w p r) = (writer, None) ->
  let cmd := mkCmd (ZFS_BINARY w) ["recv"; req_Filesystem r] in
  exists dp f,
    NewDatasetPath (req_Filesystem r) = (dp, None)
    /\ InvertedFilter (Mapping p) = (f, None)
    /\ Filter f dp = (true, None)
    /\ (req_ResumeToken r = "" \/ receive_resume_token w dp = (req_ResumeToken r, None))
    /\ writer = Some (StdinOf cmd)
    /\ trace (Receive w p r)
       = (if String.eqb (req_ResumeToken r) "" then []
          else [EvZFSGetReceiveResumeToken dp])
         ++ [EvCommand cmd; EvStart cmd].
Proof.
  intros Hres cmd. unfold Receive in *.
  destruct (NewDatasetPath (req_Filesystem r)) as [dp [e|]] eqn:Hdp; [done|].
  destruct (InvertedFilter (Mapping p)) as [f [e|]]; [done|].
  destruct (Filter f dp) as [[|] [e|]] eqn:Hf; try done.
  exists dp, f. split; [done|]. split; [done|]. split; [done|].
  cbn [negb] in *.
  assert (recv_args dp [] = ["recv"; req_Filesystem r]) as Hargs.
  { unfold recv_args. cbn. by rewrite (ToString_parse _ _ Hdp). }
  unfold ZFSGetReceiveResumeToken, ZFSRecvWriter, NewIOCommand, Start in *.
  rewrite Hargs in *. fold cmd in Hres |- *. io_unfold.
  destruct (String.eqb_spec (req_ResumeToken r) "") as [Htok|Htok]; cbn [negb] in *.
  - destruct (create_err (run w cmd)); [done|].
    destruct (start_err (run w cmd)); [done|].
    cbn in Hres. injection Hres as <-. split; [by left|]. by split.
  - destruct (receive_resume_token w dp) as [localToken [e|]]; [done|].
    destruct (String.eqb_spec localToken (req_ResumeToken r)) as [Heq|Hne];
      cbn [negb] in *; [|done].
    destruct (create_err (run w cmd)); [done|].
    destruct (start_err (run w cmd)); [done|].
    cbn in Hres. injection Hres as <-. split; [right; by rewrite Heq|]. by split.
Qed.

(** X25: [ListFilesystemVersions] causes at most one event, the listing of
    the versions of the parsed path; it lists them only for a path that is
    accepted and that the inverted filter passes, and then returns what the
    listing returns; when it returns without error, the listing was made. *)
Theorem ListFilesystemVersions_gate (fs : string) :
  let out := ListFilesystemVersions filesystem_versions w p fs in
  (trace out = [] /\ snd (result out) <> None
   \/ exists dp f,
        NewDatasetPath fs = (dp, None)
        /\ InvertedFilter (Mapping p) = (f, None)
        /\ Filter f dp = (true, None)
        /\ out = ([EvZFSListFilesystemVersions dp], filesystem_versions dp (VersionFilter p)))
  /\ (snd (result out) = None -> trace out <> []).
Proof.
  intros out. subst out. unfold ListFilesystemVersions.
  destruct (NewDatasetPath fs) as [dp [e|]]; [split; [by left|done]|].
  destruct (InvertedFilter (Mapping p)) as [f [e|]]; [split; [by left|done]|].
  destruct (Filter f dp) as [[|] [e|]] eqn:Hf; try (split; [by left|done]).
  split; [|done]. right. by exists dp, f.
Qed.

End EndpointFacts.

Lemma Receive_success_sound_witness :
  exists dp f,
    NewDatasetPath "tank/data" = (dp, None)
    /\ InvertedFilter (Mapping (puller_of true)) = (f, None)
    /\ Filter f dp = (true, None)
    /\ ("abc" = "" \/ receive_resume_token (world_of "" "abc") dp = ("abc", None))
    /\ Some (StdinOf (mkCmd "zfs" ["recv"; "tank/data"]))
       = Some (StdinOf (mkCmd "zfs" ["recv"; "tank/data"]))
    /\ trace (Receive (world_of "" "abc") (puller_of true)
                (mkReceiveRequest "tank/data" "abc"))
       = [EvZFSGetReceiveResumeToken dp]
         ++ [EvCommand (mkCmd "zfs" ["recv"; "tank/data"]);
             EvStart (mkCmd "zfs" ["recv"; "tank/data"])].
Proof.
  apply (Receive_success_sound (world_of "" "abc") (puller_of true)
           (mkReceiveRequest "tank/data" "abc")
           (Some (StdinOf (mkCmd "zfs" ["recv"; "tank/data"])))).
  reflexivity.
Defined.

Lemma ListFilesystemVersions_gate_witness :
  trace (ListFilesystemVersions (fun _ _ => ([tt], None)) (world_of "" "") (puller_of true)
           "tank/data") <> [].
Proof.
  apply (proj2 (ListFilesystemVersions_gate (fun _ _ => ([tt], None)) (world_of "" "")
                  (puller_of true) "tank/data")).
  reflexivity.
Defined.
